(** * Multiagent document Q&A: a shallow embedding of [app.py]

  The application uploads PDF files, splits the extracted text into
  token-bounded chunks, summarises every chunk with a model call, and
  answers a question from the chunk the model scores highest.

  Everything the script computes itself is embedded here: the chunking
  loop, the PDF extraction wrapper, the per-file naming of chunks, the
  relevance selection with its parse-failure fallback, and the upload
  loop over the session maps.  The tokenizer, the PDF reader, the JSON
  parser and the hosted model are external; they are interfaces (type classes). *)

From Stdlib Require Import ZArith List String Ascii Bool Lia QArith.
From Stdlib Require Import DecimalString DecimalNat.
Import ListNotations.

Set Warnings "-register-all".

Local Open Scope string_scope.
Local Open Scope Z_scope.

(** ** Exceptions and fallible computations *)

(** The Python exception classes the script can meet.  [ExternalError]
  stands for whatever the PDF reader or the model client raises; all
  of them are subclasses of [Exception]. *)
Inductive exn : Type :=
| JSONDecodeError
| ValueError
| IndexError
| TypeError
| AttributeError
| ExternalError (msg : string).

Inductive result (A : Type) : Type :=
| Ok (a : A)
| Raise (e : exn).

Arguments Ok {A} a.
Arguments Raise {A} e.

Definition rbind {A B} (r : result A) (k : A -> result B) : result B :=
  match r with
  | Ok a => k a
  | Raise e => Raise e
  end.

Declare Scope result_scope.
Delimit Scope result_scope with result.
Notation "x <- r ;; k" := (rbind r (fun x => k))
  (at level 61, r at next level, right associativity) : result_scope.

(** ** Insertion-ordered dictionaries

  A Python [dict] keeps its keys in insertion order, and the script
  depends on it ([list(summaries.keys())[0]]).  A dictionary is an
  association list; assigning to a present key overwrites the value in
  place, assigning to an absent key appends the entry. *)
Module PyDict.

Definition dict (V : Type) : Type := list (string * V).

Definition empty {V} : dict V := [].

Definition keys {V} (d : dict V) : list string := map fst d.

Definition items {V} (d : dict V) : list (string * V) := d.

Fixpoint get {V} (k : string) (d : dict V) : option V :=
  match d with
  | [] => None
  | (k', v) :: rest => if String.eqb k k' then Some v else get k rest
  end.

Definition mem {V} (k : string) (d : dict V) : bool :=
  match get k d with
  | Some _ => true
  | None => false
  end.

(** [d[k] = v] *)
Fixpoint set {V} (k : string) (v : V) (d : dict V) : dict V :=
  match d with
  | [] => [(k, v)]
  | (k', v') :: rest =>
      if String.eqb k k' then (k', v) :: rest else (k', v') :: set k v rest
  end.

(** [d.update(other)] *)
Definition update {V} (d other : dict V) : dict V :=
  fold_left (fun acc kv => set (fst kv) (snd kv) acc) other d.

(** What an assignment does to the key list; it does not look at values. *)
Fixpoint add_key (k : string) (ks : list string) : list string :=
  match ks with
  | [] => [k]
  | k' :: rest => if String.eqb k k' then k' :: rest else k' :: add_key k rest
  end.

End PyDict.

Import PyDict.

(** ** Configuration

  [ConfigLoader] lives outside this file; the script only reads the
  chunk threshold and, per agent, two prompts, a temperature and a
  response limit. *)
Record agent_config : Type := {
  system_prompt : string;
  model_prompt : string;
  temperature : Q;
  max_tokens : Z
}.

Record config : Type := {
  max_chunk_tokens : Z;
  document_analysis_agent : agent_config;
  researcher_agent : agent_config;
  reply_agent : agent_config
}.

(** ** External components

    The tokenizer ([tiktoken]), the PDF reader ([PyPDF2]), the hosted
    model and the Python runtime pieces the script leans on ([json.loads],
    the [>] operator on parsed values) are interfaces of the embedding. *)

Definition token : Type := Z.

(** [encoding.encode] refuses some texts (special-token literals);
    [encoding.decode] is total on the tokens [encode] produced. *)
Class Tokenizer : Type := {
  encode : string -> result (list token);
  decode : list token -> string
}.

(** [PyPDF2.PdfReader(f).pages] and [page.extract_text()]. *)
Class PdfLibrary : Type := {
  pdf_file : Type;
  page : Type;
  PdfReader : pdf_file -> result (list page);
  extract_text : page -> result string
}.

(** A Python float, as far as comparisons see it: NaN, an infinity, or a
    finite value given by the rational it denotes. *)
Inductive pyfloat : Type :=
| FNaN
| FInf (negative : bool)
| FFinite (q : Q).

(** What [json.loads] can return. *)
Inductive pyval : Type :=
| PNone
| PBool (b : bool)
| PInt (z : Z)
| PFloat (f : pyfloat)
| PStr (s : string)
| PList (l : list pyval)
| PDict (d : list (string * pyval)).

(** One chat-completion request: system prompt, user prompt, temperature
    and response limit. *)
Record request : Type := {
  req_system : string;
  req_user : string;
  req_temperature : Q;
  req_max_tokens : Z
}.

(** The model answers a request given the requests issued before it, so
    two calls with the same prompt may differ.  [object_gt] is Python's
    [>] on operands that are not both numbers; [None] is its [TypeError]. *)
Class Runtime : Type := {
  chat_completions_create : list request -> request -> result string;
  json_loads : string -> result pyval;
  object_gt : pyval -> pyval -> option bool
}.

(** ** Tokenizer wrapper and chunking *)

Section Chunking.

Context {TK : Tokenizer}.

Definition count_tokens (text : string) : result Z :=
  (tokens <- encode text ;;
   Ok (Z.of_nat (List.length tokens)))%result.

(** The three loop variables of [split_text_into_chunks]. *)
Record split_state : Type := {
  chunks : list string;
  current_chunk : list token;
  current_length : Z
}.

Definition split_init : split_state :=
  {| chunks := []; current_chunk := []; current_length := 0 |}.

(** One iteration of [for token in tokens]. *)
Definition split_step (max_tokens : Z) (st : split_state) (tok : token)
  : split_state :=
  let st1 :=
    if current_length st >=? max_tokens then
      {| chunks := chunks st ++ [decode (current_chunk st)];
         current_chunk := [];
         current_length := 0 |}
    else st in
  {| chunks := chunks st1;
     current_chunk := current_chunk st1 ++ [tok];
     current_length := current_length st1 + 1 |}.

Definition split_finish (st : split_state) : list string :=
  match current_chunk st with
  | [] => chunks st
  | _ :: _ => chunks st ++ [decode (current_chunk st)]
  end.

Definition split_text_into_chunks (cfg : config) (text : string)
    (max_tokens : option Z) : result (list string) :=
  let max_tokens :=
    match max_tokens with
    | None => max_chunk_tokens cfg
    | Some m => m
    end in
  (tokens <- encode text ;;
   Ok (split_finish (fold_left (split_step max_tokens) tokens split_init)))%result.

End Chunking.

(** The token sequences behind the chunks: the same loop with the call
    to [decode] left out.  [split_text_into_chunks] is this list mapped
    through [decode] (lemma [split_text_decodes_groups]). *)
Record group_state : Type := {
  groups : list (list token);
  group : list token;
  group_length : Z
}.

Definition group_init : group_state :=
  {| groups := []; group := []; group_length := 0 |}.

Definition group_step (max_tokens : Z) (st : group_state) (tok : token)
  : group_state :=
  let st1 :=
    if group_length st >=? max_tokens then
      {| groups := groups st ++ [group st]; group := []; group_length := 0 |}
    else st in
  {| groups := groups st1;
     group := group st1 ++ [tok];
     group_length := group_length st1 + 1 |}.

Definition group_finish (st : group_state) : list (list token) :=
  match group st with
  | [] => groups st
  | _ :: _ => groups st ++ [group st]
  end.

Definition token_groups (max_tokens : Z) (tokens : list token)
  : list (list token) :=
  group_finish (fold_left (group_step max_tokens) tokens group_init).

(** ** PDF extraction *)

Section Extraction.

Context {TK : Tokenizer} {PDF : PdfLibrary}.

(** [for page in pdf_reader.pages: full_text += page.extract_text()] *)
Fixpoint read_pages (full_text : string) (pages : list page) : result string :=
  match pages with
  | [] => Ok full_text
  | p :: rest =>
      (t <- extract_text p ;;
       read_pages (full_text ++ t) rest)%result
  end.

(** [[count_tokens(chunk) for chunk in chunks]] *)
Fixpoint count_each (cs : list string) : result (list Z) :=
  match cs with
  | [] => Ok []
  | c :: rest =>
      (n <- count_tokens c ;;
       ns <- count_each rest ;;
       Ok (n :: ns))%result
  end.

Definition extract_text_from_pdf (cfg : config) (f : pdf_file)
  : result (list string * list Z) :=
  (pages <- PdfReader f ;;
   full_text <- read_pages "" pages ;;
   total_tokens <- count_tokens full_text ;;
   let max_chunk_tokens := max_chunk_tokens cfg in
   if total_tokens >? max_chunk_tokens then
     chunks <- split_text_into_chunks cfg full_text None ;;
     chunk_tokens <- count_each chunks ;;
     Ok (chunks, chunk_tokens)
   else
     Ok ([full_text], [total_tokens]))%result.

End Extraction.

(** ** Python values: comparison and [max] *)

(** [bool] is a subclass of [int]; ints and floats compare by value. *)
Definition as_number (v : pyval) : option pyfloat :=
  match v with
  | PBool b => Some (FFinite (if b then 1 else 0)%Q)
  | PInt z => Some (FFinite (inject_Z z))
  | PFloat f => Some f
  | _ => None
  end.

(** [a > b] on numbers: every comparison with NaN is false. *)
Definition float_gt (a b : pyfloat) : bool :=
  match a, b with
  | FNaN, _ | _, FNaN => false
  | FInf na, FInf nb => negb na && nb
  | FInf na, FFinite _ => negb na
  | FFinite _, FInf nb => nb
  | FFinite p, FFinite q => negb (Qle_bool p q)
  end.

(** [a >= b] on numbers. *)
Definition float_ge (a b : pyfloat) : bool :=
  match a, b with
  | FNaN, _ | _, FNaN => false
  | FInf na, FInf nb => negb na || nb
  | FInf na, FFinite _ => negb na
  | FFinite _, FInf nb => nb
  | FFinite p, FFinite q => Qle_bool q p
  end.

Definition is_nan (f : pyfloat) : bool :=
  match f with
  | FNaN => true
  | _ => false
  end.

Section Values.

Context {RT : Runtime}.

Definition py_gt (a b : pyval) : result bool :=
  match as_number a, as_number b with
  | Some x, Some y => Ok (float_gt x y)
  | _, _ =>
      match object_gt a b with
      | Some r => Ok r
      | None => Raise TypeError
      end
  end.

(** [v.items()]: only a dict has the method. *)
Definition py_items (v : pyval) : result (dict pyval) :=
  match v with
  | PDict d => Ok d
  | _ => Raise AttributeError
  end.

(** The scan of [max(iterable, key=lambda x: x[1])]: the running maximum
    is replaced only by an item whose key is strictly greater. *)
Fixpoint max_scan (best : string * pyval) (rest : list (string * pyval))
  : result (string * pyval) :=
  match rest with
  | [] => Ok best
  | item :: rest' =>
      (greater <- py_gt (snd item) (snd best) ;;
       max_scan (if greater then item else best) rest')%result
  end.

(** [max] of an empty iterable raises [ValueError]. *)
Definition py_max_by_value (its : list (string * pyval))
  : result (string * pyval) :=
  match its with
  | [] => Raise ValueError
  | first :: rest => max_scan first rest
  end.

End Values.

(** ** The session and its effects *)

Record uploaded_file {PDF : PdfLibrary} : Type := {
  name : string;
  read : pdf_file
}.

(** What the script puts on the page. *)
Inductive ui_event : Type :=
| Spinner (file_name : string)
| Progress (percent : Z)
| ProgressEmpty
| InfoSplit (file_name : string) (total_tokens : Z) (parts : nat)
| SuccessSplit (file_name : string) (total_tokens : Z) (parts : nat)
    (chunk_tokens : list Z)
| Success (file_name : string) (total_tokens : Z)
| ErrorProcessing (file_name : string) (e : exn)
| ErrorParsingScores.

(** [st.session_state] with the three maps, the configuration, the
    requests sent to the model so far and the page output so far. *)
Record world : Type := {
  documents : dict string;
  summaries : dict string;
  token_counts : dict Z;
  session_config : config;
  calls : list request;
  screen : list ui_event
}.

Definition initial_world (cfg : config) : world :=
  {| documents := empty; summaries := empty; token_counts := empty;
     session_config := cfg; calls := []; screen := [] |}.

(** A computation that reads and writes the session and may raise;
    what was written before the exception stays written. *)
Definition M (A : Type) : Type := world -> result A * world.

Definition mret {A} (a : A) : M A := fun w => (Ok a, w).

Definition mbind {A B} (c : M A) (k : A -> M B) : M B :=
  fun w =>
    match c w with
    | (Ok a, w') => k a w'
    | (Raise e, w') => (Raise e, w')
    end.

Definition lift {A} (r : result A) : M A := fun w => (r, w).

Declare Scope session_scope.
Delimit Scope session_scope with session.
Notation "x <- c ;; k" := (mbind c (fun x => k))
  (at level 61, c at next level, right associativity) : session_scope.
Notation "c ;;; k" := (mbind c (fun _ => k))
  (at level 61, right associativity) : session_scope.

Definition show (ev : ui_event) : M unit :=
  fun w =>
    (Ok tt,
     {| documents := documents w; summaries := summaries w;
        token_counts := token_counts w; session_config := session_config w;
        calls := calls w; screen := screen w ++ [ev] |}).

Definition get_config : M config := fun w => (Ok (session_config w), w).

(** [st.session_state.documents.update(docs)] and its two siblings. *)
Definition update_documents (docs : dict string) : M unit :=
  fun w =>
    (Ok tt,
     {| documents := update (documents w) docs; summaries := summaries w;
        token_counts := token_counts w; session_config := session_config w;
        calls := calls w; screen := screen w |}).

Definition update_summaries (sums : dict string) : M unit :=
  fun w =>
    (Ok tt,
     {| documents := documents w; summaries := update (summaries w) sums;
        token_counts := token_counts w; session_config := session_config w;
        calls := calls w; screen := screen w |}).

Definition update_token_counts (tokens : dict Z) : M unit :=
  fun w =>
    (Ok tt,
     {| documents := documents w; summaries := summaries w;
        token_counts := update (token_counts w) tokens;
        session_config := session_config w;
        calls := calls w; screen := screen w |}).

Definition newline : string := String (ascii_of_nat 10) EmptyString.

(** [str(n)] for a natural number. *)
Definition str_of_nat (n : nat) : string :=
  NilEmpty.string_of_uint (Nat.to_uint n).

(** [f"{file_name} (Part {i+1}/{len(chunks)})"] *)
Definition part_name (file_name : string) (i n : nat) : string :=
  file_name ++ " (Part " ++ str_of_nat (i + 1) ++ "/" ++ str_of_nat n ++ ")".

Definition sum_tokens (chunk_tokens : list Z) : Z :=
  fold_left Z.add chunk_tokens 0.

Section Agents.

Context {TK : Tokenizer} {PDF : PdfLibrary} {RT : Runtime}.

(** [client.chat.completions.create(...)] followed by
    [response.choices[0].message.content]. *)
Definition chat (agent : agent_config) (prompt_system prompt_user : string)
  : M string :=
  fun w =>
    let req := {| req_system := prompt_system; req_user := prompt_user;
                  req_temperature := temperature agent;
                  req_max_tokens := max_tokens agent |} in
    (chat_completions_create (calls w) req,
     {| documents := documents w; summaries := summaries w;
        token_counts := token_counts w; session_config := session_config w;
        calls := calls w ++ [req]; screen := screen w |}).

Definition get_summary (text : string) : M string :=
  (cfg <- get_config ;;
   let config := document_analysis_agent cfg in
   let prompt := model_prompt config ++ text in
   chat config (system_prompt config) prompt)%session.

(** The body of [for i, (chunk, tokens) in enumerate(zip(chunks, chunk_tokens))];
    [n] is [len(chunks)]. *)
Fixpoint chunks_loop (file_name : string) (n i : nat)
    (zipped : list (string * Z))
    (documents summaries : dict string) (token_counts : dict Z)
  : M (dict string * dict string * dict Z) :=
  match zipped with
  | [] => mret (documents, summaries, token_counts)
  | (chunk, tokens) :: rest =>
      let chunk_name :=
        if (1 <? n)%nat then part_name file_name i n else file_name in
      let documents := set chunk_name chunk documents in
      let token_counts := set chunk_name tokens token_counts in
      (summary <- get_summary chunk ;;
       let summaries := set chunk_name summary summaries in
       chunks_loop file_name n (S i) rest documents summaries token_counts)%session
  end.

Definition process_document_chunks (file_name : string)
    (chunks : list string) (chunk_tokens : list Z)
  : M (dict string * dict string * dict Z) :=
  chunks_loop file_name (List.length chunks) 0 (combine chunks chunk_tokens)
    empty empty empty.

(** [for filename, summary in summaries.items(): prompt += ...] *)
Definition add_summaries (prompt : string) (summaries : dict string) : string :=
  fold_left
    (fun prompt kv =>
       prompt ++ "Document: " ++ fst kv ++ newline
              ++ "Summary: " ++ snd kv ++ newline ++ newline)
    (items summaries) prompt.

(** The [try] block of [select_relevant_document]; its [logging.info]
    line writes to the log only and is left out. *)
Definition parse_scores (content : string) : result (string * dict pyval) :=
  (relevance_scores <- json_loads content ;;
   its <- py_items relevance_scores ;;
   best <- py_max_by_value its ;;
   Ok (fst best, its))%result.

(** [{k: 0 for k in summaries.keys()}] *)
Definition zero_scores (summaries : dict string) : dict pyval :=
  fold_left (fun acc k => set k (PInt 0) acc) (keys summaries) empty.

(** The [except json.JSONDecodeError] block. *)
Definition fallback_scores (summaries : dict string)
  : M (string * dict pyval) :=
  (show ErrorParsingScores ;;;
   match keys summaries with
   | [] => lift (Raise IndexError)
   | first :: _ => mret (first, zero_scores summaries)
   end)%session.

Definition select_relevant_document (question : string)
    (summaries : dict string) : M (string * dict pyval) :=
  (cfg <- get_config ;;
   let config := researcher_agent cfg in
   let prompt := model_prompt config ++ newline ++ newline
                 ++ "Documents and summaries:" ++ newline ++ newline in
   let prompt := add_summaries prompt summaries in
   let prompt := prompt ++ "Question: " ++ question ++ newline ++ newline
                 ++ "Relevance scores:" in
   content <- chat config (system_prompt config) prompt ;;
   match parse_scores content with
   | Raise JSONDecodeError => fallback_scores summaries
   | outcome => lift outcome
   end)%session.

(** ** The upload loop *)

(** The [try] block for one uploaded file. *)
Definition process_upload (file : uploaded_file) : M unit :=
  (show (Progress 0) ;;;
   show (Progress 25) ;;;
   cfg <- get_config ;;
   extracted <- lift (extract_text_from_pdf cfg (read file)) ;;
   let chunks := fst extracted in
   let chunk_tokens := snd extracted in
   show (Progress 50) ;;;
   let total_tokens := sum_tokens chunk_tokens in
   (if (1 <? List.length chunks)%nat
    then show (InfoSplit (name file) total_tokens (List.length chunks))
    else mret tt) ;;;
   show (Progress 75) ;;;
   processed <- process_document_chunks (name file) chunks chunk_tokens ;;
   let '(docs, sums, tokens) := processed in
   update_documents docs ;;;
   update_summaries sums ;;;
   update_token_counts tokens ;;;
   show (Progress 100) ;;;
   (if (1 <? List.length chunks)%nat
    then show (SuccessSplit (name file) total_tokens (List.length chunks)
                 chunk_tokens)
    else show (Success (name file) total_tokens)) ;;;
   show ProgressEmpty)%session.

(** One iteration of [for file in uploaded_files]: the membership test,
    the spinner, and [except Exception: st.error(...); continue]. *)
Definition handle_file (file : uploaded_file) : M unit :=
  fun w =>
    if mem (name file) (documents w) then (Ok tt, w)
    else
      match (show (Spinner (name file)) ;;; process_upload file)%session w with
      | (Ok _, w') => (Ok tt, w')
      | (Raise e, w') => show (ErrorProcessing (name file) e) w'
      end.

Fixpoint upload_loop (uploaded_files : list uploaded_file) : M unit :=
  match uploaded_files with
  | [] => mret tt
  | file :: rest => (handle_file file ;;; upload_loop rest)%session
  end.

End Agents.

(** ** Editing summaries

    The side panel shows one text area per summary; [text_area filename
    value] is what the area holds when the script reads it.  A changed
    text overwrites the summary under the same key. *)
Fixpoint edit_loop (text_area : string -> string -> string)
    (filenames : list string) (sums : dict string) : dict string :=
  match filenames with
  | [] => sums
  | filename :: rest =>
      match get filename sums with
      | Some current =>
          let edited_summary := text_area filename current in
          if String.eqb edited_summary current
          then edit_loop text_area rest sums
          else edit_loop text_area rest (set filename edited_summary sums)
      | None => edit_loop text_area rest sums
      end
  end.

(** [for filename in st.session_state.summaries.keys(): ...] *)
Definition edit_summaries (text_area : string -> string -> string) : M unit :=
  fun w =>
    (Ok tt,
     {| documents := documents w;
        summaries := edit_loop text_area (keys (summaries w)) (summaries w);
        token_counts := token_counts w; session_config := session_config w;
        calls := calls w; screen := screen w |}).

(** ** Test fixtures: small concrete instances of the interfaces *)

(** A byte-level tokenizer: one token per character. *)
Definition byte_tokenizer : Tokenizer :=
  {| encode := fun text =>
       Ok (map (fun c => Z.of_nat (nat_of_ascii c)) (list_ascii_of_string text));
     decode := fun tokens =>
       string_of_list_ascii (map (fun t => ascii_of_nat (Z.to_nat t)) tokens) |}.

(** A PDF "file" that is already the outcome of reading it. *)
Definition outcome_pdf : PdfLibrary :=
  {| pdf_file := result (list (result string));
     page := result string;
     PdfReader := fun f => f;
     extract_text := fun p => p |}.

Fixpoint table_lookup {V} (k : string) (table : list (string * V)) : option V :=
  match table with
  | [] => None
  | (k', v) :: rest => if String.eqb k k' then Some v else table_lookup k rest
  end.

(** A model that answers its n-th request with the n-th scripted
    response, and a JSON parser that knows the listed documents only. *)
Definition scripted_runtime (responses : list (result string))
    (json_table : list (string * pyval)) : Runtime :=
  {| chat_completions_create := fun history _ =>
       nth (List.length history) responses (Raise (ExternalError "no response"));
     json_loads := fun s =>
       match table_lookup s json_table with
       | Some v => Ok v
       | None => Raise JSONDecodeError
       end;
     object_gt := fun _ _ => None |}.

Definition test_agent : agent_config :=
  {| system_prompt := "sys"; model_prompt := "prompt: ";
     temperature := 0%Q; max_tokens := 100 |}.

Definition test_config (max_chunk : Z) : config :=
  {| max_chunk_tokens := max_chunk;
     document_analysis_agent := test_agent;
     researcher_agent := test_agent;
     reply_agent := test_agent |}.

(** ** Predicates used in the statements *)

Section ChunkingPredicates.

Context {TK : Tokenizer}.

(** The bound [split_text_into_chunks] works with: its argument, or the
    configured threshold when the argument is [None]. *)
Definition effective_max (cfg : config) (max_tokens : option Z) : Z :=
  match max_tokens with
  | None => max_chunk_tokens cfg
  | Some m => m
  end.

Definition token_length (g : list token) : Z := Z.of_nat (List.length g).

(** The string-level loop state mirrors the token-level one. *)
Definition mirrors (st : split_state) (gs : group_state) : Prop :=
  chunks st = map decode (groups gs)
  /\ current_chunk st = group gs
  /\ current_length st = group_length gs.

(** With a bound of at least one: the counter is the length of the
    group being filled, that group never overflows, and every group
    already flushed is full. *)
Definition well_filled (m : Z) (gs : group_state) : Prop :=
  group_length gs = token_length (group gs)
  /\ group_length gs <= m
  /\ Forall (fun g => token_length g = m) (groups gs).

End ChunkingPredicates.

(** The session maps and the configuration are the same in two worlds. *)
Definition same_maps (w w' : world) : Prop :=
  documents w' = documents w
  /\ summaries w' = summaries w
  /\ token_counts w' = token_counts w
  /\ session_config w' = session_config w.

(** The invariant of the data model: the three session maps have the
    same keys, in the same order. *)
Definition maps_aligned (w : world) : Prop :=
  keys (documents w) = keys (summaries w)
  /\ keys (summaries w) = keys (token_counts w).

(** The name [process_document_chunks] gives to chunk [i] (counted from
    zero) of a file cut into [n] chunks. *)
Definition chunk_name (file_name : string) (n i : nat) : string :=
  if (1 <? n)%nat then part_name file_name i n else file_name.

(** ** Vocabulary for the relevance selector *)

(** The request [select_relevant_document] sends. *)
Definition relevance_request (cfg : config) (question : string)
    (summaries : dict string) : request :=
  let config := researcher_agent cfg in
  {| req_system := system_prompt config;
     req_user :=
       fold_left
         (fun prompt kv =>
            prompt ++ "Document: " ++ fst kv ++ newline
                   ++ "Summary: " ++ snd kv ++ newline ++ newline)
         summaries
         (model_prompt config ++ newline ++ newline
          ++ "Documents and summaries:" ++ newline ++ newline)
       ++ "Question: " ++ question ++ newline ++ newline
       ++ "Relevance scores:";
     req_temperature := temperature config;
     req_max_tokens := max_tokens config |}.

(** The world once [req] has been sent to the model. *)
Definition sent (req : request) (w : world) : world :=
  {| documents := documents w; summaries := summaries w;
     token_counts := token_counts w; session_config := session_config w;
     calls := calls w ++ [req]; screen := screen w |}.

(** The world once [ev] has been put on the page. *)
Definition shown (ev : ui_event) (w : world) : world :=
  {| documents := documents w; summaries := summaries w;
     token_counts := token_counts w; session_config := session_config w;
     calls := calls w; screen := screen w ++ [ev] |}.

(** [a >= b] on parsed values that are numbers. *)
Definition value_ge (a b : pyval) : bool :=
  match as_number a, as_number b with
  | Some x, Some y => float_ge x y
  | _, _ => false
  end.

(** A score in the sense of the glossary: a number, and not NaN. *)
Definition is_score (v : pyval) : bool :=
  match as_number v with
  | Some x => negb (is_nan x)
  | None => false
  end.

(** [best] names an entry of [d] whose score is at least every score. *)
Definition picked_maximum (d : dict pyval) (best : string) : Prop :=
  exists top,
    In (best, top) d /\ forall k v, In (k, v) d -> value_ge top v = true.

(** ** Fixtures for the upload loop and the selector *)

Definition test_file (file_name : string) (content : result (list (result string)))
  : @uploaded_file outcome_pdf :=
  @Build_uploaded_file outcome_pdf file_name content.

Definition small_file : @uploaded_file outcome_pdf :=
  test_file "a.pdf" (Ok [Ok "ab"]).

Definition large_file : @uploaded_file outcome_pdf :=
  test_file "b.pdf" (Ok [Ok "abc"; Ok "def"]).

Definition broken_file : @uploaded_file outcome_pdf :=
  test_file "c.pdf" (Raise (ExternalError "EOF marker not found")).

Definition quote : string := String (ascii_of_nat 34) EmptyString.

(** The response body [{"a": NaN, "b": 1}], which [json.loads] accepts. *)
Definition nan_body : string :=
  "{" ++ quote ++ "a" ++ quote ++ ": NaN, " ++ quote ++ "b" ++ quote ++ ": 1}".

Definition nan_scores : dict pyval := [("a", PFloat FNaN); ("b", PInt 1)].

(** The response body [{"a": 10, "b": 90.5, "c": 90.5}]. *)
Definition good_body : string :=
  "{" ++ quote ++ "a" ++ quote ++ ": 10, " ++ quote ++ "b" ++ quote
      ++ ": 90.5, " ++ quote ++ "c" ++ quote ++ ": 90.5}".

Definition good_scores : dict pyval :=
  [("a", PInt 10); ("b", PFloat (FFinite (181 # 2))); ("c", PFloat (FFinite (181 # 2)))].

Definition json_fixture : list (string * pyval) :=
  [(nan_body, PDict nan_scores); (good_body, PDict good_scores);
   ("{}", PDict []); ("[]", PList [])].

Definition three_summaries : dict string :=
  [("a", "about a"); ("b", "about b"); ("c", "about c")].

(** ** Further vocabulary *)

(** Rounded-up quotient: how many groups of [m] hold [n] tokens. *)
Definition groups_needed (n m : Z) : Z := (n + m - 1) / m.

(** [''.join(chunks)] *)
Definition join (chunks : list string) : string :=
  fold_right String.append EmptyString chunks.

(** The request [get_summary] sends for a text. *)
Definition summary_request (cfg : config) (text : string) : request :=
  let config := document_analysis_agent cfg in
  {| req_system := system_prompt config;
     req_user := model_prompt config ++ text;
     req_temperature := temperature config;
     req_max_tokens := max_tokens config |}.

(** [a > b] on parsed values that are numbers. *)
Definition value_gt (a b : pyval) : bool :=
  match as_number a, as_number b with
  | Some x, Some y => float_gt x y
  | _, _ => false
  end.

(** A response body naming a document that was never uploaded:
    [{"ghost.pdf": 99}]. *)
Definition ghost_body : string :=
  "{" ++ quote ++ "ghost.pdf" ++ quote ++ ": 99}".

(** A response body whose only score is a word: [{"a": "high"}]. *)
Definition word_body : string :=
  "{" ++ quote ++ "a" ++ quote ++ ": " ++ quote ++ "high" ++ quote ++ "}".

(** A response body mixing a number and a word:
    [{"a": 10, "b": "high"}]. *)
Definition mixed_body : string :=
  "{" ++ quote ++ "a" ++ quote ++ ": 10, " ++ quote ++ "b" ++ quote ++ ": "
      ++ quote ++ "high" ++ quote ++ "}".

Definition json_fixture2 : list (string * pyval) :=
  [(ghost_body, PDict [("ghost.pdf", PInt 99)]);
   (word_body, PDict [("a", PStr "high")]);
   (mixed_body, PDict [("a", PInt 10); ("b", PStr "high")])].

(** No session map holds a key twice, as in any Python [dict]. *)
Definition maps_well_formed (w : world) : Prop :=
  NoDup (keys (documents w))
  /\ NoDup (keys (summaries w))
  /\ NoDup (keys (token_counts w)).

(** A text area that shows an upper-cased marker in front of the
    summary of ["a.pdf"] and leaves the others as they are. *)
Definition test_text_area (filename current : string) : string :=
  if String.eqb filename "a.pdf" then "EDITED " ++ current else current.

(** ** Answering a question *)

(** The request [get_answer] sends: the document text goes into the
    system prompt, the question into the user prompt. *)
Definition answer_request (cfg : config) (question document_text : string)
  : request :=
  let config := reply_agent cfg in
  {| req_system := system_prompt config ++ newline ++ newline
                   ++ "Document Context:" ++ newline ++ document_text;
     req_user := model_prompt config ++ question;
     req_temperature := temperature config;
     req_max_tokens := max_tokens config |}.

Section Answering.

Context {RT : Runtime}.

Definition get_answer (question document_text : string) : M string :=
  (cfg <- get_config ;;
   let config := reply_agent cfg in
   let prompt := model_prompt config ++ question in
   chat config
     (system_prompt config ++ newline ++ newline
      ++ "Document Context:" ++ newline ++ document_text)
     prompt)%session.

End Answering.

(** The relevance panel, [sorted(relevance_scores.items(), ...)] shown
    with one [st.progress(score / 100)] per entry, belongs to Python and
    Streamlit; it shows the scores or raises. *)
Class Page : Type := {
  render_scores : dict pyval -> result unit
}.

(** How a run of the question block can end badly: a dictionary lookup
    with a missing key, or an exception coming out of a call. *)
Inductive script_error : Type :=
| KeyError (key : string)
| Propagated (e : exn).

Inductive outcome (A : Type) : Type :=
| Done (a : A)
| Failed (err : script_error).

Arguments Done {A} a.
Arguments Failed {A} err.

(** The answer box: source, document size, relevance score, answer. *)
Record answer_panel : Type := {
  source : string;
  document_size : Z;
  relevance_score : pyval;
  answer_text : string
}.

Section QuestionBlock.

Context {RT : Runtime} {PG : Page}.

(** [if st.button(...)] down to the answer box.  [button] is what the
    button returned in this run; the result is what the answer box
    shows, or [None] when the block is skipped. *)
Definition answer_question (button : bool) (question : string)
  : world -> outcome (option answer_panel) * world :=
  fun w =>
    let show_answer := button in
    if show_answer && negb (String.eqb question "")
       && negb (match documents w with [] => true | _ :: _ => false end)
    then
      match select_relevant_document question (summaries w) w with
      | (Raise e, w1) => (Failed (Propagated e), w1)
      | (Ok (relevant_doc, relevance_scores), w1) =>
          match render_scores relevance_scores with
          | Raise e => (Failed (Propagated e), w1)
          | Ok _ =>
              match get relevant_doc (documents w1) with
              | None => (Failed (KeyError relevant_doc), w1)
              | Some document_text =>
                  match get_answer question document_text w1 with
                  | (Raise e, w2) => (Failed (Propagated e), w2)
                  | (Ok answer, w2) =>
                      match get relevant_doc (token_counts w2) with
                      | None => (Failed (KeyError relevant_doc), w2)
                      | Some size =>
                          match get relevant_doc relevance_scores with
                          | None => (Failed (KeyError relevant_doc), w2)
                          | Some score =>
                              (Done (Some {| source := relevant_doc;
                                             document_size := size;
                                             relevance_score := score;
                                             answer_text := answer |}),
                               w2)
                          end
                      end
                  end
              end
          end
      end
    else (Done None, w).

End QuestionBlock.

(** A page that shows every panel. *)
Definition plain_page : Page := {| render_scores := fun _ => Ok tt |}.

(** A session with one stored document. *)
Definition one_document_world : world :=
  {| documents := [("a.pdf", "ab")];
     summaries := [("a.pdf", "about a")];
     token_counts := [("a.pdf", 2)];
     session_config := test_config 3;
     calls := [];
     screen := [] |}.

(** * Properties *)

(** ** Chunking *)

Section ChunkingProperties.

Context {TK : Tokenizer}.



Lemma mirrors_step (m : Z) (st : split_state) (gs : group_state) (tok : token) :
  mirrors st gs -> mirrors (split_step m st tok) (group_step m gs tok).
Proof.
  intros (Hc & Hg & Hl). unfold split_step, group_step. rewrite Hl.
  destruct (group_length gs >=? m); unfold mirrors; cbn.
  - rewrite Hc, Hg, map_app. auto.
  - rewrite Hc, Hg, Hl. auto.
Qed.

Lemma mirrors_fold (m : Z) (tokens : list token) :
  forall st gs, mirrors st gs ->
    mirrors (fold_left (split_step m) tokens st)
            (fold_left (group_step m) tokens gs).
Proof.
  induction tokens as [|tok rest IH]; intros st gs H; cbn; [exact H|].
  apply IH, mirrors_step, H.
Qed.

Lemma mirrors_finish (st : split_state) (gs : group_state) :
  mirrors st gs -> split_finish st = map decode (group_finish gs).
Proof.
  intros (Hc & Hg & _). unfold split_finish, group_finish.
  rewrite Hg, Hc. destruct (group gs); [reflexivity|].
  rewrite map_app. reflexivity.
Qed.

Lemma split_text_decodes_groups (cfg : config) (text : string)
    (mt : option Z) (tokens : list token) :
  encode text = Ok tokens ->
  split_text_into_chunks cfg text mt =
  Ok (map decode (token_groups (effective_max cfg mt) tokens)).
Proof.
  intros He. unfold split_text_into_chunks, token_groups. rewrite He. cbn.
  f_equal. apply mirrors_finish, mirrors_fold.
  unfold mirrors. cbn. auto.
Qed.

(** Nothing is lost and nothing repeated, whatever the bound. *)
Lemma group_fold_concat (m : Z) (tokens : list token) :
  forall gs,
    let gs' := fold_left (group_step m) tokens gs in
    (List.concat (groups gs') ++ group gs' = List.concat (groups gs) ++ group gs ++ tokens)%list.
Proof.
  induction tokens as [|tok rest IH]; intros gs; cbn.
  - rewrite app_nil_r. reflexivity.
  - cbn in IH. rewrite IH. unfold group_step.
    destruct (group_length gs >=? m); cbn.
    + rewrite List.concat_app. cbn. rewrite !app_nil_r, <- !app_assoc. reflexivity.
    + rewrite <- !app_assoc. reflexivity.
Qed.

Lemma group_finish_concat (gs : group_state) :
  List.concat (group_finish gs) = (List.concat (groups gs) ++ group gs)%list.
Proof.
  unfold group_finish. destruct (group gs) eqn:E.
  - rewrite app_nil_r. reflexivity.
  - rewrite List.concat_app. cbn. rewrite app_nil_r. reflexivity.
Qed.

Lemma token_groups_concat (m : Z) (tokens : list token) :
  List.concat (token_groups m tokens) = tokens.
Proof.
  unfold token_groups. rewrite group_finish_concat.
  pose proof (group_fold_concat m tokens group_init) as H. cbn in H.
  exact H.
Qed.


Lemma well_filled_step (m : Z) (gs : group_state) (tok : token) :
  1 <= m -> well_filled m gs ->
  well_filled m (group_step m gs tok) /\ group (group_step m gs tok) <> [].
Proof.
  intros Hm (Hlen & Hle & Hfull). unfold group_step, well_filled, token_length in *.
  destruct (group_length gs >=? m) eqn:E; cbn.
  - apply Z.geb_le in E. repeat split; try lia.
    + apply Forall_app. split; [exact Hfull|].
      constructor; [lia|constructor].
    + discriminate.
  - rewrite Z.geb_leb in E. apply Z.leb_gt in E.
    rewrite length_app. cbn. repeat split; try lia; try assumption.
    destruct (group gs); discriminate.
Qed.

Lemma well_filled_fold (m : Z) (tokens : list token) :
  1 <= m ->
  forall gs, well_filled m gs -> (tokens = [] -> group gs <> [] \/ groups gs = []) ->
    let gs' := fold_left (group_step m) tokens gs in
    well_filled m gs' /\ (group gs' <> [] \/ groups gs' = []).
Proof.
  intros Hm. induction tokens as [|tok rest IH]; intros gs Hw Hne; cbn.
  - split; [exact Hw | apply Hne; reflexivity].
  - destruct (well_filled_step m gs tok Hm Hw) as [Hw' Hne'].
    apply IH; [exact Hw' | intros _; left; exact Hne'].
Qed.

(** The shape of the result: nothing, or full groups followed by one
    last group holding between one and [m] tokens. *)
Lemma token_groups_shape (m : Z) (tokens : list token) :
  1 <= m ->
  token_groups m tokens = []
  \/ exists full last,
       token_groups m tokens = (full ++ [last])%list
       /\ Forall (fun g => token_length g = m) full
       /\ 1 <= token_length last <= m.
Proof.
  intros Hm. unfold token_groups.
  destruct (well_filled_fold m tokens Hm group_init) as [(Hlen & Hle & Hfull) Hne].
  - unfold well_filled, token_length. cbn. repeat split; [lia|constructor].
  - intros _. right. reflexivity.
  - cbn in *. unfold group_finish.
    destruct (group (fold_left (group_step m) tokens group_init)) as [|t g] eqn:Eg.
    + destruct Hne as [Hne|Hne]; [congruence|]. left. exact Hne.
    + right. exists (groups (fold_left (group_step m) tokens group_init)), (t :: g).
      split; [reflexivity|]. split; [exact Hfull|].
      unfold token_length in *. rewrite Hlen in Hle. cbn in *. lia.
Qed.

(** C1. For a bound of at least one, the chunks returned by
    [split_text_into_chunks] are the decodings of token groups that each
    hold at most the bound: every group but the last holds exactly the
    bound, the last holds between one token and the bound.  A chunk whose
    text encodes back to its own group therefore counts at most the bound
    tokens; a chunk that re-encodes differently is the decode-time
    rounding the claim sets aside. *)
Theorem split_chunks_within_limit (cfg : config) (text : string)
    (mt : option Z) (tokens : list token) :
  1 <= effective_max cfg mt ->
  encode text = Ok tokens ->
  let gs := token_groups (effective_max cfg mt) tokens in
  split_text_into_chunks cfg text mt = Ok (map decode gs)
  /\ (forall g, In g gs -> 1 <= token_length g <= effective_max cfg mt)
  /\ (gs = []
      \/ exists full last,
           gs = (full ++ [last])%list
           /\ Forall (fun g => token_length g = effective_max cfg mt) full)
  /\ (forall g, In g gs -> encode (decode g) = Ok g ->
        exists n, count_tokens (decode g) = Ok n /\ n <= effective_max cfg mt).
Proof.
  intros Hm He gs. subst gs.
  pose proof (token_groups_shape (effective_max cfg mt) tokens Hm) as Hshape.
  assert (Hall : forall g, In g (token_groups (effective_max cfg mt) tokens) ->
                   1 <= token_length g <= effective_max cfg mt).
  { intros g Hin. destruct Hshape as [E | (full & last & E & Hfull & Hlast)].
    - rewrite E in Hin. destruct Hin.
    - rewrite E in Hin. apply in_app_or in Hin. destruct Hin as [Hin | [<- | []]].
      + rewrite Forall_forall in Hfull. rewrite (Hfull g Hin). lia.
      + exact Hlast. }
  split; [apply split_text_decodes_groups, He|].
  split; [exact Hall|]. split.
  - destruct Hshape as [E | (full & last & E & Hfull & _)]; [left; exact E|].
    right. exists full, last. auto.
  - intros g Hin Hround. exists (token_length g).
    unfold count_tokens. rewrite Hround. cbn. split; [reflexivity|].
    apply Hall, Hin.
Qed.

(** C5. The token groups behind the returned chunks concatenate to the
    encoding of the text, for every bound: no token is repeated and none
    is dropped. *)
Theorem split_chunks_partition (cfg : config) (text : string)
    (mt : option Z) (tokens : list token) :
  encode text = Ok tokens ->
  split_text_into_chunks cfg text mt
    = Ok (map decode (token_groups (effective_max cfg mt) tokens))
  /\ List.concat (token_groups (effective_max cfg mt) tokens) = tokens.
Proof.
  intros He. split.
  - apply split_text_decodes_groups, He.
  - apply token_groups_concat.
Qed.

End ChunkingProperties.

Lemma split_chunks_within_limit_witness :
  @split_text_into_chunks byte_tokenizer (test_config 3) "abcdefg" None
    = Ok ["abc"; "def"; "g"]
  /\ forall g,
       In g (token_groups 3 [97; 98; 99; 100; 101; 102; 103]) ->
       1 <= token_length g <= 3.
Proof.
  split; [reflexivity|].
  apply (@split_chunks_within_limit byte_tokenizer (test_config 3) "abcdefg" None
           [97; 98; 99; 100; 101; 102; 103]).
  - cbn. lia.
  - reflexivity.
Defined.

Lemma split_chunks_partition_witness :
  List.concat (token_groups 0 [97; 98; 99]) = [97; 98; 99]
  /\ @split_text_into_chunks byte_tokenizer (test_config 0) "abc" None
     = Ok [""; "a"; "b"; "c"].
Proof.
  split; [|reflexivity].
  apply (@split_chunks_partition byte_tokenizer (test_config 0) "abc" None
           [97; 98; 99]).
  reflexivity.
Defined.

(** ** PDF extraction *)

Section ExtractionProperties.

Context {TK : Tokenizer} {PDF : PdfLibrary}.

(** C4. When the full text counts no more tokens than the threshold,
    [extract_text_from_pdf] returns the full text as the only chunk,
    paired with that count; above the threshold it returns what
    [split_text_into_chunks] makes of the full text. *)
Theorem extract_under_threshold_single_chunk (cfg : config) (f : pdf_file)
    (pages : list page) (full_text : string) (total_tokens : Z) :
  PdfReader f = Ok pages ->
  read_pages "" pages = Ok full_text ->
  count_tokens full_text = Ok total_tokens ->
  (total_tokens <= max_chunk_tokens cfg ->
     extract_text_from_pdf cfg f = Ok ([full_text], [total_tokens]))
  /\ (total_tokens > max_chunk_tokens cfg ->
        extract_text_from_pdf cfg f =
        (chunks <- split_text_into_chunks cfg full_text None ;;
         chunk_tokens <- count_each chunks ;;
         Ok (chunks, chunk_tokens))%result).
Proof.
  intros Hr Hp Hc. unfold extract_text_from_pdf. rewrite Hr. cbn.
  rewrite Hp. cbn. rewrite Hc. cbn. split; intros H.
  - destruct (total_tokens >? max_chunk_tokens cfg) eqn:E; [|reflexivity].
    apply Z.gtb_lt in E. lia.
  - destruct (total_tokens >? max_chunk_tokens cfg) eqn:E; [reflexivity|].
    rewrite Z.gtb_ltb in E. apply Z.ltb_ge in E. lia.
Qed.

End ExtractionProperties.

Lemma extract_under_threshold_single_chunk_witness :
  @extract_text_from_pdf byte_tokenizer outcome_pdf (test_config 5)
    (Ok [Ok "ab"; Ok "cd"]) = Ok (["abcd"], [4]).
Proof.
  apply (proj1 (@extract_under_threshold_single_chunk byte_tokenizer outcome_pdf
           (test_config 5) (Ok [Ok "ab"; Ok "cd"]) [Ok "ab"; Ok "cd"] "abcd" 4
           eq_refl eq_refl eq_refl)).
  cbn. lia.
Defined.


(** ** Dictionaries *)

Section DictFacts.

Context {V : Type}.

Lemma keys_set (k : string) (v : V) (d : dict V) :
  keys (set k v d) = add_key k (keys d).
Proof.
  induction d as [|[k' v'] rest IH]; cbn; [reflexivity|].
  destruct (String.eqb k k'); cbn; [reflexivity|].
  f_equal. exact IH.
Qed.

Lemma in_add_key (k k' : string) (ks : list string) :
  In k (add_key k' ks) <-> k = k' \/ In k ks.
Proof.
  induction ks as [|h rest IH]; cbn.
  - intuition congruence.
  - destruct (String.eqb_spec k' h) as [->|Hne]; cbn.
    + intuition congruence.
    + rewrite IH. intuition congruence.
Qed.

Lemma keys_update (d other : dict V) :
  keys (update d other)
  = fold_left (fun ks k => add_key k ks) (keys other) (keys d).
Proof.
  unfold update. revert d.
  induction other as [|[k v] rest IH]; intros d; [reflexivity|].
  cbn [fold_left keys map fst snd]. unfold keys in IH. rewrite IH.
  f_equal. apply keys_set.
Qed.

Lemma in_fold_add_key (k : string) (new ks : list string) :
  In k ks -> In k (fold_left (fun ks k => add_key k ks) new ks).
Proof.
  revert ks. induction new as [|h rest IH]; intros ks H; cbn; [exact H|].
  apply IH, in_add_key. right. exact H.
Qed.

Lemma get_in_keys (k : string) (d : dict V) :
  In k (keys d) <-> exists v, get k d = Some v.
Proof.
  induction d as [|[k' v'] rest IH]; cbn.
  - split; [intros [] | intros [v H]; discriminate].
  - destruct (String.eqb_spec k k') as [->|Hne].
    + split; [intros _; eauto | auto].
    + rewrite <- IH. intuition congruence.
Qed.

Lemma mem_in_keys (k : string) (d : dict V) :
  mem k d = true <-> In k (keys d).
Proof.
  rewrite get_in_keys. unfold mem. destruct (get k d).
  - split; eauto.
  - split; [discriminate | intros [v H]; discriminate].
Qed.

Lemma set_absent (k : string) (v : V) (d : dict V) :
  ~ In k (keys d) -> set k v d = (d ++ [(k, v)])%list.
Proof.
  induction d as [|[k' v'] rest IH]; cbn; intros H; [reflexivity|].
  destruct (String.eqb_spec k k') as [->|Hne]; [tauto|].
  f_equal. apply IH. tauto.
Qed.

Lemma get_set_same (k : string) (v : V) (d : dict V) :
  get k (set k v d) = Some v.
Proof.
  induction d as [|[k' v'] rest IH]; cbn.
  - rewrite String.eqb_refl. reflexivity.
  - destruct (String.eqb k k') eqn:E; cbn; rewrite E; [reflexivity | exact IH].
Qed.

Lemma get_set_other (k k' : string) (v : V) (d : dict V) :
  k <> k' -> get k (set k' v d) = get k d.
Proof.
  intros Hne. induction d as [|[h v'] rest IH]; cbn.
  - destruct (String.eqb_spec k k'); [contradiction | reflexivity].
  - destruct (String.eqb_spec k' h) as [->|Hh]; cbn.
    + destruct (String.eqb_spec k h); [contradiction | reflexivity].
    + destruct (String.eqb k h); [reflexivity | exact IH].
Qed.

Lemma get_combine_nodup (ks : list string) (vs : list V) (i : nat)
    (k : string) (v : V) :
  NoDup ks -> nth_error ks i = Some k -> nth_error vs i = Some v ->
  get k (combine ks vs) = Some v.
Proof.
  intros Hnd. revert vs i. induction Hnd as [|h rest Hnotin Hnd IH];
    intros vs i Hk Hv.
  - destruct i; discriminate.
  - destruct vs as [|v0 vs]; [destruct i; discriminate|].
    destruct i as [|i]; cbn in *.
    + injection Hk as ->. injection Hv as ->.
      rewrite String.eqb_refl. reflexivity.
    + destruct (String.eqb_spec k h) as [->|Hne].
      * exfalso. apply Hnotin. eapply nth_error_In, Hk.
      * eapply IH; eassumption.
Qed.

End DictFacts.

Lemma add_key_present (k : string) (ks : list string) :
  In k ks -> add_key k ks = ks.
Proof.
  induction ks as [|h rest IH]; cbn; intros H; [contradiction|].
  destruct (String.eqb_spec k h) as [->|Hne]; [reflexivity|].
  f_equal. apply IH. destruct H; congruence.
Qed.

(** Editing summaries overwrites values under keys that are there. *)
Lemma edit_loop_keys (text_area : string -> string -> string)
    (filenames : list string) :
  forall sums, keys (edit_loop text_area filenames sums) = keys sums.
Proof.
  induction filenames as [|filename rest IH]; intros sums; cbn [edit_loop];
    [reflexivity|].
  destruct (get filename sums) as [current|] eqn:E; [|apply IH].
  destruct (String.eqb (text_area filename current) current); [apply IH|].
  rewrite IH, keys_set. apply add_key_present, get_in_keys. eauto.
Qed.

(** ** Chunk names *)

Lemma append_cancel_l (a x y : string) : a ++ x = a ++ y -> x = y.
Proof.
  induction a as [|c a IH]; cbn; intros H; [exact H|].
  injection H as H. apply IH, H.
Qed.

Lemma length_append (a b : string) :
  String.length (a ++ b) = (String.length a + String.length b)%nat.
Proof.
  induction a as [|c a IH]; cbn; [reflexivity|]. rewrite IH. reflexivity.
Qed.

Lemma append_cancel_r (a b r : string) : a ++ r = b ++ r -> a = b.
Proof.
  revert b. induction a as [|c a IH]; intros [|c' b] H; cbn in *.
  - reflexivity.
  - apply (f_equal String.length) in H. cbn in H. rewrite length_append in H. lia.
  - apply (f_equal String.length) in H. cbn in H. rewrite length_append in H. lia.
  - injection H as -> H. f_equal. apply IH, H.
Qed.

Lemma str_of_nat_inj (i j : nat) : str_of_nat i = str_of_nat j -> i = j.
Proof.
  unfold str_of_nat. intros H.
  apply DecimalNat.Unsigned.to_uint_inj.
  apply (f_equal NilEmpty.uint_of_string) in H.
  rewrite !NilEmpty.usu in H. congruence.
Qed.

Lemma part_name_inj (file_name : string) (n i j : nat) :
  part_name file_name i n = part_name file_name j n -> i = j.
Proof.
  unfold part_name. intros H.
  apply append_cancel_l, append_cancel_l, append_cancel_r, str_of_nat_inj in H.
  lia.
Qed.

(** ** Summaries and chunk processing *)

Section ProcessingProperties.

Context {TK : Tokenizer} {PDF : PdfLibrary} {RT : Runtime}.

Lemma same_maps_refl (w : world) : same_maps w w.
Proof. unfold same_maps. auto. Qed.

Lemma same_maps_trans (w1 w2 w3 : world) :
  same_maps w1 w2 -> same_maps w2 w3 -> same_maps w1 w3.
Proof. unfold same_maps. intuition congruence. Qed.

Lemma show_frame (ev : ui_event) (w : world) :
  same_maps w (snd (show ev w)) /\ calls (snd (show ev w)) = calls w.
Proof. unfold same_maps. cbn. auto. Qed.

Lemma chat_frame (agent : agent_config) (s u : string) (w : world) :
  same_maps w (snd (chat agent s u w))
  /\ screen (snd (chat agent s u w)) = screen w.
Proof. unfold same_maps. cbn. auto. Qed.

Lemma get_summary_frame (text : string) (w : world) :
  same_maps w (snd (get_summary text w))
  /\ screen (snd (get_summary text w)) = screen w.
Proof. unfold get_summary, mbind, get_config. apply chat_frame. Qed.

(** Summarising chunks sends requests and touches nothing else. *)
Lemma chunks_loop_frame (file_name : string) (n : nat)
    (zipped : list (string * Z)) :
  forall i docs sums tcs w,
    same_maps w (snd (chunks_loop file_name n i zipped docs sums tcs w))
    /\ screen (snd (chunks_loop file_name n i zipped docs sums tcs w)) = screen w.
Proof.
  induction zipped as [|[chunk tokens] rest IH]; intros i docs sums tcs w.
  - cbn. split; [apply same_maps_refl | reflexivity].
  - cbn [chunks_loop]. unfold mbind.
    pose proof (get_summary_frame chunk w) as [Hs Hscr].
    destruct (get_summary chunk w) as [[summary|e] w1]; cbn in *.
    + match goal with
      | |- same_maps _ (snd ?c) /\ _ =>
          match c with
          | chunks_loop _ _ _ _ ?d ?s ?t _ =>
              destruct (IH (S i) d s t w1) as [IH1 IH2]
          end
      end.
      split.
      * eapply same_maps_trans; [exact Hs | exact IH1].
      * rewrite IH2. exact Hscr.
    + auto.
Qed.

(** The three maps under construction receive the same keys. *)
Lemma chunks_loop_aligned (file_name : string) (n : nat)
    (zipped : list (string * Z)) :
  forall i docs sums tcs w d s t w',
    keys docs = keys sums -> keys sums = keys tcs ->
    chunks_loop file_name n i zipped docs sums tcs w = (Ok (d, s, t), w') ->
    keys d = keys s /\ keys s = keys t.
Proof.
  induction zipped as [|[chunk tokens] rest IH];
    intros i docs sums tcs w d s t w' H1 H2 Hrun.
  - cbn in Hrun. injection Hrun as <- <- <- _. auto.
  - cbn [chunks_loop] in Hrun. unfold mbind in Hrun.
    destruct (get_summary chunk w) as [[summary|e] w1]; [|discriminate].
    eapply IH; [| |exact Hrun]; rewrite !keys_set; congruence.
Qed.

(** With fresh, pairwise distinct names the loop appends one entry per
    chunk, in order. *)
Lemma chunks_loop_entries (file_name : string) (n : nat)
    (zipped : list (string * Z)) :
  forall i docs sums tcs w d s t w',
    keys sums = keys docs -> keys tcs = keys docs ->
    NoDup (keys docs ++ map (chunk_name file_name n)
                            (seq i (List.length zipped)))%list ->
    chunks_loop file_name n i zipped docs sums tcs w = (Ok (d, s, t), w') ->
    let names := map (chunk_name file_name n) (seq i (List.length zipped)) in
    d = (docs ++ combine names (map fst zipped))%list
    /\ t = (tcs ++ combine names (map snd zipped))%list
    /\ keys s = (keys sums ++ names)%list.
Proof.
  induction zipped as [|[chunk tokens] rest IH];
    intros i docs sums tcs w d s t w' Hs Ht Hnd Hrun names; subst names.
  - cbn in *. injection Hrun as <- <- <- _. rewrite !app_nil_r. auto.
  - cbn [chunks_loop] in Hrun. unfold mbind in Hrun.
    destruct (get_summary chunk w) as [[summary|e] w1]; [|discriminate].
    fold (chunk_name file_name n i) in Hrun.
    cbn [List.length seq map] in Hnd |- *.
    assert (Hfresh : ~ In (chunk_name file_name n i) (keys docs)).
    { intros Hin. apply NoDup_remove_2 in Hnd. apply Hnd.
      apply in_or_app. left. exact Hin. }
    rewrite (set_absent _ chunk docs Hfresh) in Hrun.
    rewrite (set_absent _ tokens tcs) in Hrun by (rewrite Ht; exact Hfresh).
    rewrite (set_absent _ summary sums) in Hrun by (rewrite Hs; exact Hfresh).
    apply IH in Hrun.
    + destruct Hrun as (Hd & Htc & Hk). cbn [combine map fst snd].
      unfold keys in *. rewrite map_app in Hk. cbn in Hk.
      rewrite Hd, Htc, Hk, <- !app_assoc. cbn. auto.
    + unfold keys in *. rewrite !map_app, Hs. reflexivity.
    + unfold keys in *. rewrite !map_app, Ht. reflexivity.
    + unfold keys in *. rewrite map_app, <- app_assoc. cbn. exact Hnd.
Qed.

Lemma nodup_map_injective {A B : Type} (f : A -> B) (l : list A) :
  (forall x y, f x = f y -> x = y) -> NoDup l -> NoDup (map f l).
Proof.
  intros Hinj Hnd. induction Hnd as [|x l Hnotin Hnd IH]; cbn; constructor.
  - intros Hin. apply in_map_iff in Hin. destruct Hin as (y & Hy & Hin).
    apply Hinj in Hy. subst y. contradiction.
  - exact IH.
Qed.

Lemma chunk_names_nodup (file_name : string) (n k : nat) :
  (k <= n)%nat -> NoDup (map (chunk_name file_name n) (seq 0 k)).
Proof.
  intros Hk. unfold chunk_name. destruct (1 <? n)%nat eqn:E.
  - apply nodup_map_injective; [|apply seq_NoDup].
    intros i j H. eapply part_name_inj, H.
  - apply Nat.ltb_ge in E.
    destruct k as [|[|k]]; cbn; [constructor | | lia].
    constructor; [intros [] | constructor].
Qed.

(** C9. When [process_document_chunks] returns for a file and its chunk
    list (with one token count per chunk), a lone chunk is the single
    entry of each map under the file name itself; with [n > 1] chunks the
    maps hold, in order, chunk [i] (counted from one) under
    ["<file name> (Part i/n)"]. *)
Theorem chunks_keyed_by_derived_name (file_name : string)
    (chunks : list string) (chunk_tokens : list Z) (w w' : world)
    (docs sums : dict string) (tcs : dict Z) :
  List.length chunk_tokens = List.length chunks ->
  process_document_chunks file_name chunks chunk_tokens w
    = (Ok (docs, sums, tcs), w') ->
  (forall chunk tokens, chunks = [chunk] -> chunk_tokens = [tokens] ->
     docs = [(file_name, chunk)] /\ tcs = [(file_name, tokens)]
     /\ keys sums = [file_name])
  /\ ((1 < List.length chunks)%nat ->
      let names :=
        map (fun i => file_name ++ " (Part " ++ str_of_nat (i + 1) ++ "/"
                        ++ str_of_nat (List.length chunks) ++ ")")
            (seq 0 (List.length chunks)) in
      docs = combine names chunks
      /\ tcs = combine names chunk_tokens
      /\ keys sums = names
      /\ forall i chunk, nth_error chunks i = Some chunk ->
           get (file_name ++ " (Part " ++ str_of_nat (i + 1) ++ "/"
                  ++ str_of_nat (List.length chunks) ++ ")") docs = Some chunk).
Proof.
  intros Hlen Hrun. unfold process_document_chunks in Hrun.
  assert (Hk : List.length (combine chunks chunk_tokens) = List.length chunks).
  { rewrite length_combine. lia. }
  pose proof (chunk_names_nodup file_name (List.length chunks)
                (List.length chunks) (le_n _)) as Hnd.
  apply chunks_loop_entries in Hrun;
    [|reflexivity|reflexivity|cbn; rewrite Hk; exact Hnd].
  cbn in Hrun. rewrite Hk in Hrun.
  assert (Hfst : map fst (combine chunks chunk_tokens) = chunks).
  { clear -Hlen. revert chunk_tokens Hlen.
    induction chunks as [|c cs IH]; intros [|t ts] H; cbn in *;
      try discriminate; [reflexivity|]. f_equal. apply IH. lia. }
  assert (Hsnd : map snd (combine chunks chunk_tokens) = chunk_tokens).
  { clear -Hlen. revert chunk_tokens Hlen.
    induction chunks as [|c cs IH]; intros [|t ts] H; cbn in *;
      try discriminate; [reflexivity|]. f_equal. apply IH. lia. }
  rewrite Hfst, Hsnd in Hrun. destruct Hrun as (Hd & Ht & Hs). split.
  - intros chunk tokens -> ->. cbn in *. auto.
  - intros Hn names.
    assert (Hnames : map (chunk_name file_name (List.length chunks))
                         (seq 0 (List.length chunks)) = names).
    { subst names. apply map_ext. intros i. unfold chunk_name, part_name.
      apply Nat.ltb_lt in Hn. rewrite Hn. reflexivity. }
    rewrite Hnames in Hd, Ht, Hs, Hnd.
    repeat split; try assumption.
    intros i chunk Hi. rewrite Hd.
    eapply get_combine_nodup; [exact Hnd| |exact Hi].
    subst names.
    assert (Hlt : (i < List.length chunks)%nat)
      by (apply nth_error_Some; congruence).
    rewrite nth_error_map, nth_error_seq.
    apply Nat.ltb_lt in Hlt. rewrite Hlt. reflexivity.
Qed.

End ProcessingProperties.

Lemma chunks_keyed_by_derived_name_witness :
  get "a.pdf (Part 2/2)"
      [("a.pdf (Part 1/2)", "x"); ("a.pdf (Part 2/2)", "y")] = Some "y".
Proof.
  destruct (@chunks_keyed_by_derived_name
              (scripted_runtime [Ok "first"; Ok "second"] [])
              "a.pdf" ["x"; "y"] [1; 1]
              (initial_world (test_config 1)) _ _ _ _
              eq_refl eq_refl) as [_ Hparts].
  destruct (Hparts ltac:(cbn; lia)) as (_ & _ & _ & Hget).
  exact (Hget 1%nat "y" eq_refl).
Defined.

(** ** The upload loop *)

Section UploadProperties.

Context {TK : Tokenizer} {PDF : PdfLibrary} {RT : Runtime}.

Lemma process_chunks_frame (file_name : string) (chunks : list string)
    (chunk_tokens : list Z) (w : world) :
  same_maps w (snd (process_document_chunks file_name chunks chunk_tokens w))
  /\ screen (snd (process_document_chunks file_name chunks chunk_tokens w))
     = screen w.
Proof. apply chunks_loop_frame. Qed.

Lemma process_chunks_aligned (file_name : string) (chunks : list string)
    (chunk_tokens : list Z) (w w' : world)
    (docs sums : dict string) (tcs : dict Z) :
  process_document_chunks file_name chunks chunk_tokens w
    = (Ok (docs, sums, tcs), w') ->
  keys docs = keys sums /\ keys sums = keys tcs.
Proof. apply chunks_loop_aligned; reflexivity. Qed.

(** One file, once past the membership test: either the three maps are
    updated with three maps over the same names, or they are untouched. *)
Lemma process_upload_outcome (file : uploaded_file) (w : world) :
  match process_upload file w with
  | (Ok _, w') =>
      exists docs sums tokens,
        keys docs = keys sums /\ keys sums = keys tokens
        /\ documents w' = update (documents w) docs
        /\ summaries w' = update (summaries w) sums
        /\ token_counts w' = update (token_counts w) tokens
        /\ session_config w' = session_config w
  | (Raise _, w') => same_maps w w'
  end.
Proof.
  unfold process_upload, mbind, show, get_config, lift. cbv beta iota.
  cbn [documents summaries token_counts session_config calls screen].
  destruct (extract_text_from_pdf (session_config w) (read file))
    as [[chunks toks]|e]; [|unfold same_maps; cbn; auto].
  cbn [fst snd].
  destruct (1 <? List.length chunks)%nat; cbv beta iota delta [mret];
    cbn [documents summaries token_counts session_config calls screen];
    match goal with
    | |- context [process_document_chunks ?f ?c ?t ?W] =>
        pose proof (process_chunks_frame f c t W) as [Hframe _];
        pose proof (process_chunks_aligned f c t W) as Hal;
        destruct (process_document_chunks f c t W)
          as [[[[docs sums] tokens]|e] w1]
    end;
    cbn [snd] in Hframe; destruct Hframe as (Hd & Hs & Ht & Hc);
    cbn [documents summaries token_counts session_config] in Hd, Hs, Ht, Hc;
    try (unfold same_maps; auto; fail);
    destruct (Hal w1 docs sums tokens eq_refl) as [H1 H2];
    unfold update_documents, update_summaries, update_token_counts;
    cbv beta iota;
    cbn [documents summaries token_counts session_config calls screen];
    exists docs, sums, tokens; rewrite Hd, Hs, Ht, Hc; auto 10.
Qed.

Lemma guarded_upload_outcome (file : uploaded_file) (w : world) :
  match (show (Spinner (name file)) ;;; process_upload file)%session w with
  | (Ok _, w') =>
      exists docs sums tokens,
        keys docs = keys sums /\ keys sums = keys tokens
        /\ documents w' = update (documents w) docs
        /\ summaries w' = update (summaries w) sums
        /\ token_counts w' = update (token_counts w) tokens
        /\ session_config w' = session_config w
  | (Raise _, w') => same_maps w w'
  end.
Proof.
  unfold mbind at 1. cbn [show].
  match goal with
  | |- context [process_upload file ?W] => exact (process_upload_outcome file W)
  end.
Qed.

(** Whatever happens to a file, the step amounts to updating the three
    session maps with three maps over the same names (empty ones when
    the file is skipped or fails), and it never raises. *)
Lemma handle_file_outcome (file : uploaded_file) (w : world) :
  fst (handle_file file w) = Ok tt
  /\ exists docs sums tokens,
       keys docs = keys sums /\ keys sums = keys tokens
       /\ documents (snd (handle_file file w)) = update (documents w) docs
       /\ summaries (snd (handle_file file w)) = update (summaries w) sums
       /\ token_counts (snd (handle_file file w)) = update (token_counts w) tokens
       /\ session_config (snd (handle_file file w)) = session_config w.
Proof.
  unfold handle_file. destruct (mem (name file) (documents w)).
  - split; [reflexivity|]. exists empty, empty, empty. cbn. auto 10.
  - pose proof (guarded_upload_outcome file w) as H.
    destruct ((show (Spinner (name file)) ;;; process_upload file)%session w)
      as [[u|e] w1].
    + split; [reflexivity|]. exact H.
    + split; [reflexivity|]. destruct H as (Hd & Hs & Ht & Hc).
      exists empty, empty, empty. cbn. auto 10.
Qed.

Lemma upload_loop_cons (file : uploaded_file) (rest : list uploaded_file)
    (w : world) :
  upload_loop (file :: rest) w = upload_loop rest (snd (handle_file file w)).
Proof.
  cbn [upload_loop]. unfold mbind.
  pose proof (handle_file_outcome file w) as [Hok _].
  destruct (handle_file file w) as [r w1]. cbn in *. rewrite Hok. reflexivity.
Qed.

Lemma upload_loop_never_raises (uploaded_files : list uploaded_file) :
  forall w, fst (upload_loop uploaded_files w) = Ok tt.
Proof.
  induction uploaded_files as [|file rest IH]; intros w; [reflexivity|].
  rewrite upload_loop_cons. apply IH.
Qed.

Lemma handle_file_aligned (file : uploaded_file) (w : world) :
  maps_aligned w -> maps_aligned (snd (handle_file file w)).
Proof.
  intros [H1 H2].
  destruct (handle_file_outcome file w)
    as (_ & docs & sums & tokens & K1 & K2 & Hd & Hs & Ht & _).
  unfold maps_aligned. rewrite Hd, Hs, Ht, !keys_update. split; congruence.
Qed.

Lemma handle_file_keeps_keys (file : uploaded_file) (w : world) (k : string) :
  (In k (keys (documents w)) -> In k (keys (documents (snd (handle_file file w)))))
  /\ (In k (keys (summaries w)) -> In k (keys (summaries (snd (handle_file file w)))))
  /\ (In k (keys (token_counts w))
      -> In k (keys (token_counts (snd (handle_file file w))))).
Proof.
  destruct (handle_file_outcome file w)
    as (_ & docs & sums & tokens & _ & _ & Hd & Hs & Ht & _).
  rewrite Hd, Hs, Ht, !keys_update.
  repeat split; apply in_fold_add_key.
Qed.

Lemma upload_loop_aligned (uploaded_files : list uploaded_file) :
  forall w, maps_aligned w -> maps_aligned (snd (upload_loop uploaded_files w)).
Proof.
  induction uploaded_files as [|file rest IH]; intros w H; [exact H|].
  rewrite upload_loop_cons. apply IH, handle_file_aligned, H.
Qed.

Lemma upload_loop_keeps_keys (uploaded_files : list uploaded_file) (k : string) :
  forall w,
    (In k (keys (documents w))
     -> In k (keys (documents (snd (upload_loop uploaded_files w)))))
    /\ (In k (keys (summaries w))
        -> In k (keys (summaries (snd (upload_loop uploaded_files w)))))
    /\ (In k (keys (token_counts w))
        -> In k (keys (token_counts (snd (upload_loop uploaded_files w))))).
Proof.
  induction uploaded_files as [|file rest IH]; intros w; [cbn; auto|].
  rewrite upload_loop_cons.
  destruct (IH (snd (handle_file file w))) as (I1 & I2 & I3).
  destruct (handle_file_keeps_keys file w k) as (J1 & J2 & J3).
  auto.
Qed.

Lemma initial_world_aligned (cfg : config) : maps_aligned (initial_world cfg).
Proof. split; reflexivity. Qed.

(** C3. If the three session maps have the same keys before the upload
    loop runs over a list of files, they have the same keys after it:
    every name in [documents] then has a summary and a token count.
    Each single file is handled by updating the three maps with three
    maps that [process_document_chunks] built over the same names. *)
Theorem upload_keeps_maps_aligned (uploaded_files : list uploaded_file)
    (w : world) :
  maps_aligned w ->
  maps_aligned (snd (upload_loop uploaded_files w))
  /\ (forall k, In k (keys (documents (snd (upload_loop uploaded_files w)))) ->
        (exists s, get k (summaries (snd (upload_loop uploaded_files w))) = Some s)
        /\ (exists t, get k (token_counts (snd (upload_loop uploaded_files w)))
                        = Some t))
  /\ (forall file w0, maps_aligned w0 -> maps_aligned (snd (handle_file file w0)))
  /\ (forall file_name chunks chunk_tokens w0 w1 docs sums tcs,
        process_document_chunks file_name chunks chunk_tokens w0
          = (Ok (docs, sums, tcs), w1) ->
        keys docs = keys sums /\ keys sums = keys tcs).
Proof.
  intros H. pose proof (upload_loop_aligned uploaded_files w H) as [A1 A2].
  split; [split; assumption|]. split.
  - intros k Hk. split; apply get_in_keys; congruence.
  - split; [intros file w0; apply handle_file_aligned|].
    intros file_name chunks chunk_tokens w0 w1 docs sums tcs.
    apply process_chunks_aligned.
Qed.

(** C8. A file whose name is already a key of [documents] is skipped:
    its step leaves the whole session as it was (no request is sent, no
    map is written), and the loop goes on with the remaining files.  The
    upload loop never removes a key from any of the three maps, and
    editing summaries, the only other write to them, keeps every key. *)
Theorem known_file_skipped_nothing_deleted (file : uploaded_file)
    (uploaded_files : list uploaded_file) (w : world) :
  mem (name file) (documents w) = true ->
  handle_file file w = (Ok tt, w)
  /\ upload_loop (file :: uploaded_files) w = upload_loop uploaded_files w
  /\ (forall files w0 k,
        (In k (keys (documents w0))
         -> In k (keys (documents (snd (upload_loop files w0)))))
        /\ (In k (keys (summaries w0))
            -> In k (keys (summaries (snd (upload_loop files w0)))))
        /\ (In k (keys (token_counts w0))
            -> In k (keys (token_counts (snd (upload_loop files w0))))))
  /\ (forall text_area w0,
        documents (snd (edit_summaries text_area w0)) = documents w0
        /\ keys (summaries (snd (edit_summaries text_area w0)))
           = keys (summaries w0)
        /\ token_counts (snd (edit_summaries text_area w0)) = token_counts w0).
Proof.
  intros Hmem.
  assert (Hskip : handle_file file w = (Ok tt, w))
    by (unfold handle_file; rewrite Hmem; reflexivity).
  split; [exact Hskip|]. split.
  - rewrite upload_loop_cons, Hskip. reflexivity.
  - split; [intros files w0 k; apply upload_loop_keeps_keys|].
    intros text_area w0. cbn. repeat split. apply edit_loop_keys.
Qed.

(** C7. When the processing of a file raises (while reading the PDF,
    counting tokens or calling the model), the exception stops at that
    file: an error naming the file is shown, the three session maps are
    exactly what they were before the file, and the loop carries on with
    the remaining files.  The loop as a whole never raises. *)
Theorem failed_file_contributes_nothing (file : uploaded_file)
    (rest : list uploaded_file) (w w1 : world) (e : exn) :
  mem (name file) (documents w) = false ->
  (show (Spinner (name file)) ;;; process_upload file)%session w = (Raise e, w1) ->
  exists w2,
    handle_file file w = (Ok tt, w2)
    /\ screen w2 = (screen w1 ++ [ErrorProcessing (name file) e])%list
    /\ documents w2 = documents w
    /\ summaries w2 = summaries w
    /\ token_counts w2 = token_counts w
    /\ upload_loop (file :: rest) w = upload_loop rest w2
    /\ fst (upload_loop (file :: rest) w) = Ok tt.
Proof.
  intros Hmem Hrun.
  assert (Hmaps : same_maps w w1).
  { pose proof (guarded_upload_outcome file w) as H.
    rewrite Hrun in H. exact H. }
  destruct Hmaps as (Hd & Hs & Ht & _).
  assert (Hstep : handle_file file w
                  = show (ErrorProcessing (name file) e) w1).
  { unfold handle_file. rewrite Hmem, Hrun. reflexivity. }
  eexists. split; [rewrite Hstep; reflexivity|].
  cbn [screen documents summaries token_counts].
  repeat split; try assumption.
  - rewrite upload_loop_cons, Hstep. reflexivity.
  - apply upload_loop_never_raises.
Qed.

(** Where the exceptions of C7 come from: a PDF that cannot be read, and
    a model call that fails on the first chunk. *)
Lemma unreadable_pdf_raises (file : uploaded_file) (w : world) (e : exn) :
  PdfReader (read file) = Raise e ->
  fst (process_upload file w) = Raise e.
Proof.
  intros H. unfold process_upload, mbind, show, get_config, lift.
  cbv beta iota. unfold extract_text_from_pdf. rewrite H. reflexivity.
Qed.

End UploadProperties.

Lemma upload_keeps_maps_aligned_witness :
  maps_aligned
    (snd (@upload_loop byte_tokenizer outcome_pdf
            (scripted_runtime [Ok "s1"; Ok "s2"; Ok "s3"] [])
            [small_file; large_file; small_file]
            (initial_world (test_config 3))))
  /\ keys (documents
       (snd (@upload_loop byte_tokenizer outcome_pdf
               (scripted_runtime [Ok "s1"; Ok "s2"; Ok "s3"] [])
               [small_file; large_file; small_file]
               (initial_world (test_config 3)))))
     = ["a.pdf"; "b.pdf (Part 1/2)"; "b.pdf (Part 2/2)"].
Proof.
  split; [|vm_compute; reflexivity].
  refine (proj1 (@upload_keeps_maps_aligned byte_tokenizer outcome_pdf
           (scripted_runtime [Ok "s1"; Ok "s2"; Ok "s3"] [])
           [small_file; large_file; small_file]
           (initial_world (test_config 3)) _)).
  split; reflexivity.
Defined.

Lemma known_file_skipped_nothing_deleted_witness :
  let w := snd (@upload_loop byte_tokenizer outcome_pdf
                  (scripted_runtime [Ok "s1"] [])
                  [small_file] (initial_world (test_config 3))) in
  keys (documents w) = ["a.pdf"]
  /\ @handle_file byte_tokenizer outcome_pdf (scripted_runtime [Ok "s1"] [])
       small_file w = (Ok tt, w).
Proof.
  split; [vm_compute; reflexivity|].
  apply (@known_file_skipped_nothing_deleted byte_tokenizer outcome_pdf
           (scripted_runtime [Ok "s1"] []) small_file []).
  vm_compute. reflexivity.
Defined.

Lemma failed_file_contributes_nothing_witness :
  exists w2,
    @handle_file byte_tokenizer outcome_pdf (scripted_runtime [] [])
      broken_file (initial_world (test_config 3)) = (Ok tt, w2)
    /\ screen w2
       = [Spinner "c.pdf"; Progress 0; Progress 25;
          ErrorProcessing "c.pdf" (ExternalError "EOF marker not found")]
    /\ documents w2 = empty /\ summaries w2 = empty /\ token_counts w2 = empty.
Proof.
  destruct (@failed_file_contributes_nothing byte_tokenizer outcome_pdf
              (scripted_runtime [] []) broken_file [small_file]
              (initial_world (test_config 3)) _ _ eq_refl eq_refl)
    as (w2 & Hstep & Hscreen & Hd & Hs & Ht & _).
  exists w2. repeat split; assumption.
Defined.

(** A model call that fails on the second chunk of a file: two requests
    were sent, the file left no entry, and the next file was processed
    (its own request is the third one, which the script does not answer). *)
Example model_failure_mid_file :
  let w := snd (@upload_loop byte_tokenizer outcome_pdf
                  (scripted_runtime
                     [Ok "s1"; Raise (ExternalError "rate limit"); Ok "s3"] [])
                  [large_file; small_file] (initial_world (test_config 3))) in
  keys (documents w) = ["a.pdf"]
  /\ summaries w = [("a.pdf", "s3")]
  /\ token_counts w = [("a.pdf", 2)]
  /\ List.length (calls w) = 3%nat
  /\ In (ErrorProcessing "b.pdf" (ExternalError "rate limit")) (screen w).
Proof.
  vm_compute. repeat split; try reflexivity.
  repeat (first [left; reflexivity | right]).
Qed.

(** ** Comparing scores *)

Lemma float_ge_refl (a : pyfloat) : is_nan a = false -> float_ge a a = true.
Proof.
  destruct a as [|[]|q]; cbn; intros H; try reflexivity; try discriminate.
  apply Qle_bool_iff, Qle_refl.
Qed.

Lemma float_ge_trans (a b c : pyfloat) :
  float_ge a b = true -> float_ge b c = true -> float_ge a c = true.
Proof.
  destruct a as [|[]|p], b as [|[]|q], c as [|[]|r]; cbn;
    intros H1 H2; try reflexivity; try discriminate.
  apply Qle_bool_iff. apply Qle_bool_iff in H1, H2.
  eapply Qle_trans; eassumption.
Qed.

Lemma float_gt_ge (a b : pyfloat) : float_gt a b = true -> float_ge a b = true.
Proof.
  destruct a as [|[]|p], b as [|[]|q]; cbn; intros H;
    try reflexivity; try discriminate.
  apply Qle_bool_iff. apply negb_true_iff in H.
  destruct (Qlt_le_dec q p) as [Hlt|Hle].
  - apply Qlt_le_weak, Hlt.
  - apply Qle_bool_iff in Hle. congruence.
Qed.

Lemma float_not_gt_ge (a b : pyfloat) :
  is_nan a = false -> is_nan b = false ->
  float_gt a b = false -> float_ge b a = true.
Proof.
  destruct a as [|[]|p], b as [|[]|q]; cbn; intros Ha Hb H;
    try reflexivity; try discriminate.
  apply negb_false_iff in H. exact H.
Qed.

Section SelectionProperties.

Context {RT : Runtime}.

Lemma py_gt_scores (a b : pyval) :
  is_score a = true -> is_score b = true ->
  exists x y,
    as_number a = Some x /\ as_number b = Some y
    /\ is_nan x = false /\ is_nan y = false
    /\ py_gt a b = Ok (float_gt x y).
Proof.
  unfold is_score, py_gt. intros Ha Hb.
  destruct (as_number a) as [x|]; [|discriminate].
  destruct (as_number b) as [y|]; [|discriminate].
  exists x, y. apply negb_true_iff in Ha, Hb. auto.
Qed.

Lemma value_ge_refl (a : pyval) : is_score a = true -> value_ge a a = true.
Proof.
  unfold is_score, value_ge. destruct (as_number a); [|discriminate].
  intros H. apply float_ge_refl, negb_true_iff, H.
Qed.

Lemma value_ge_trans (a b c : pyval) :
  value_ge a b = true -> value_ge b c = true -> value_ge a c = true.
Proof.
  unfold value_ge.
  destruct (as_number a), (as_number b), (as_number c);
    try discriminate. apply float_ge_trans.
Qed.

(** On scores the scan returns an item that is at least the starting
    item and at least every item scanned. *)
Lemma max_scan_scores (rest : list (string * pyval)) :
  forall best,
    is_score (snd best) = true ->
    Forall (fun kv => is_score (snd kv) = true) rest ->
    exists r,
      max_scan best rest = Ok r
      /\ In r (best :: rest)
      /\ value_ge (snd r) (snd best) = true
      /\ forall x, In x rest -> value_ge (snd r) (snd x) = true.
Proof.
  induction rest as [|item rest IH]; intros best Hb Hall.
  - exists best. cbn. split; [reflexivity|]. split; [left; reflexivity|].
    split; [apply value_ge_refl, Hb|]. intros x [].
  - inversion Hall as [|? ? Hi Hrest]; subst.
    destruct (py_gt_scores (snd item) (snd best) Hi Hb)
      as (x & y & Hx & Hy & Nx & Ny & Hgt).
    cbn [max_scan]. rewrite Hgt. cbn [rbind].
    destruct (float_gt x y) eqn:E.
    + destruct (IH item Hi Hrest) as (r & Hrun & Hin & Hge & Hr).
      exists r. split; [exact Hrun|]. split; [cbn in *; tauto|].
      assert (Hib : value_ge (snd item) (snd best) = true).
      { unfold value_ge. rewrite Hx, Hy. apply float_gt_ge, E. }
      split; [eapply value_ge_trans; eassumption|].
      intros z [->|Hz]; auto.
    + destruct (IH best Hb Hrest) as (r & Hrun & Hin & Hge & Hr).
      exists r. split; [exact Hrun|]. split; [cbn in *; tauto|].
      split; [exact Hge|].
      assert (Hbi : value_ge (snd best) (snd item) = true).
      { unfold value_ge. rewrite Hx, Hy. apply float_not_gt_ge; assumption. }
      intros z [->|Hz]; [eapply value_ge_trans; eassumption | auto].
Qed.

(** A scan stops early only on a comparison Python refuses. *)
Lemma max_scan_raises_type_error (rest : list (string * pyval)) :
  forall best e, max_scan best rest = Raise e -> e = TypeError.
Proof.
  induction rest as [|item rest IH]; intros best e H; [discriminate|].
  cbn [max_scan] in H. unfold py_gt in H.
  destruct (as_number (snd item)), (as_number (snd best)); cbn in H;
    try (eapply IH; exact H);
    destruct (object_gt (snd item) (snd best)); cbn in H;
    try (eapply IH; exact H); congruence.
Qed.

(** Once the body has parsed, the [try] block cannot raise the
    exception its handler is waiting for. *)
Lemma parse_scores_after_loads (content : string) (v : pyval) :
  json_loads content = Ok v ->
  parse_scores content <> Raise JSONDecodeError.
Proof.
  intros Hv. unfold parse_scores. rewrite Hv. cbn [rbind].
  destruct v; cbn; try discriminate.
  destruct d as [|first rest]; cbn; [discriminate|].
  destruct (max_scan first rest) eqn:E; cbn; [discriminate|].
  apply max_scan_raises_type_error in E. subst. discriminate.
Qed.

(** [select_relevant_document], with its request named. *)
Lemma select_relevant_document_unfold (question : string)
    (summaries : dict string) (w : world) :
  select_relevant_document question summaries w =
  let req := relevance_request (session_config w) question summaries in
  match chat_completions_create (calls w) req with
  | Raise e => (Raise e, sent req w)
  | Ok content =>
      match parse_scores content with
      | Raise JSONDecodeError => fallback_scores summaries (sent req w)
      | outcome => (outcome, sent req w)
      end
  end.
Proof.
  unfold select_relevant_document, mbind, get_config, chat, lift.
  cbv beta iota zeta.
  change (add_summaries ?p summaries) with
    (fold_left
       (fun prompt kv =>
          prompt ++ "Document: " ++ fst kv ++ newline
                 ++ "Summary: " ++ snd kv ++ newline ++ newline)
       summaries p).
  fold (relevance_request (session_config w) question summaries).
  fold (sent (relevance_request (session_config w) question summaries) w).
  destruct (chat_completions_create (calls w)
              (relevance_request (session_config w) question summaries))
    as [content|e]; [|reflexivity].
  destruct (parse_scores content) as [[best d]|[]]; reflexivity.
Qed.

Lemma zero_scores_fold (ks : list string) :
  forall acc : dict pyval,
    (forall k, In k ks ->
       get k (fold_left (fun acc k => set k (PInt 0) acc) ks acc) = Some (PInt 0))
    /\ (forall k, In k (keys (fold_left (fun acc k => set k (PInt 0) acc) ks acc)) ->
          In k ks \/ In k (keys acc))
    /\ (forall k, get k acc = Some (PInt 0) ->
          get k (fold_left (fun acc k => set k (PInt 0) acc) ks acc) = Some (PInt 0)).
Proof.
  induction ks as [|h rest IH]; intros acc; cbn [fold_left].
  - repeat split; auto. intros k [].
  - destruct (IH (set h (PInt 0) acc)) as (I1 & I2 & I3).
    assert (Hkeep : forall k, get k acc = Some (PInt 0) ->
                      get k (set h (PInt 0) acc) = Some (PInt 0)).
    { intros k Hk. destruct (String.eqb_spec k h) as [->|Hne].
      - apply get_set_same.
      - rewrite get_set_other by exact Hne. exact Hk. }
    repeat split.
    + intros k [<-|Hk]; [apply I3, get_set_same | apply I1, Hk].
    + intros k Hk. apply I2 in Hk. destruct Hk as [Hk|Hk]; [left; right; exact Hk|].
      rewrite keys_set in Hk. apply in_add_key in Hk.
      destruct Hk as [->|Hk]; [left; left; reflexivity | right; exact Hk].
    + intros k Hk. apply I3, Hkeep, Hk.
Qed.

(** C2. With at least one summary, when the body the model returns
    does not parse as JSON, [select_relevant_document] returns the first
    key of the summaries with a score map that gives 0 to every key of
    the summaries and has no other key; the only request sent is the one
    relevance request. *)
Theorem malformed_scores_fall_back (question : string)
    (summaries : dict string) (w : world) (content : string) :
  summaries <> [] ->
  chat_completions_create (calls w)
    (relevance_request (session_config w) question summaries) = Ok content ->
  json_loads content = Raise JSONDecodeError ->
  exists first w',
    hd_error (keys summaries) = Some first
    /\ select_relevant_document question summaries w
       = (Ok (first, zero_scores summaries), w')
    /\ (forall k, In k (keys summaries) ->
          get k (zero_scores summaries) = Some (PInt 0))
    /\ (forall k, In k (keys (zero_scores summaries)) -> In k (keys summaries))
    /\ calls w'
       = (calls w ++ [relevance_request (session_config w) question summaries])%list
    /\ screen w' = (screen w ++ [ErrorParsingScores])%list
    /\ same_maps w w'.
Proof.
  intros Hne Hchat Hjson.
  assert (Hk : exists first others, keys summaries = first :: others).
  { destruct summaries as [|[first s] rest]; [congruence|]. cbn. eauto. }
  destruct Hk as (first & others & Hk).
  exists first.
  exists (shown ErrorParsingScores
            (sent (relevance_request (session_config w) question summaries) w)).
  split; [rewrite Hk; reflexivity|]. split.
  - rewrite select_relevant_document_unfold. cbv zeta. rewrite Hchat.
    unfold parse_scores. rewrite Hjson. cbn [rbind].
    unfold fallback_scores, mbind. cbn [show]. rewrite Hk. reflexivity.
  - destruct (zero_scores_fold (keys summaries) empty) as (Z1 & Z2 & _).
    split; [exact Z1|]. split.
    + intros k Hin. apply Z2 in Hin. destruct Hin as [Hin|[]]. exact Hin.
    + unfold same_maps. cbn. auto 10.
Qed.

(** C6, as the code has it.  When the body parses to a non-empty map
    whose values are all scores (numbers other than NaN),
    [select_relevant_document] returns the parsed map together with a
    name of the map whose score is at least every score of the map. *)
Theorem numeric_scores_pick_maximum (question : string)
    (summaries : dict string) (w : world) (content : string) (d : dict pyval) :
  chat_completions_create (calls w)
    (relevance_request (session_config w) question summaries) = Ok content ->
  json_loads content = Ok (PDict d) ->
  d <> [] ->
  Forall (fun kv => is_score (snd kv) = true) d ->
  exists best,
    select_relevant_document question summaries w
    = (Ok (best, d),
       sent (relevance_request (session_config w) question summaries) w)
    /\ picked_maximum d best.
Proof.
  intros Hchat Hjson Hne Hscores.
  destruct d as [|first rest]; [congruence|].
  inversion Hscores as [|? ? Hf Hrest]; subst.
  destruct (max_scan_scores rest first Hf Hrest) as (r & Hrun & Hin & Hge & Hr).
  exists (fst r). split.
  - rewrite select_relevant_document_unfold. cbv zeta. rewrite Hchat.
    unfold parse_scores. rewrite Hjson. cbn [rbind py_items py_max_by_value].
    rewrite Hrun. reflexivity.
  - exists (snd r). split; [destruct r; exact Hin|].
    intros k v [Hkv|Hkv].
    + subst first. exact Hge.
    + apply (Hr (k, v) Hkv).
Qed.

(** C10. The fallback runs only when the [try] block raises
    [JSONDecodeError].  A body that parses to the empty object makes the
    call raise [ValueError] (from [max]) with no fallback; a body that
    does not parse, with no summaries at all, makes the fallback itself
    raise [IndexError]; any body that parses never reaches the fallback;
    and any other exception of the parser passes through. *)
Theorem fallback_only_on_json_decode_error (question : string)
    (summaries : dict string) (w : world) (content : string) :
  chat_completions_create (calls w)
    (relevance_request (session_config w) question summaries) = Ok content ->
  let w1 := sent (relevance_request (session_config w) question summaries) w in
  (json_loads content = Ok (PDict []) ->
     select_relevant_document question summaries w = (Raise ValueError, w1))
  /\ (json_loads content = Raise JSONDecodeError -> summaries = [] ->
       select_relevant_document question summaries w
       = (Raise IndexError, shown ErrorParsingScores w1))
  /\ (forall v, json_loads content = Ok v ->
       select_relevant_document question summaries w = (parse_scores content, w1)
       /\ parse_scores content <> Raise JSONDecodeError)
  /\ (forall e, json_loads content = Raise e -> e <> JSONDecodeError ->
       select_relevant_document question summaries w = (Raise e, w1)).
Proof.
  intros Hchat w1.
  assert (Hpass : forall v, json_loads content = Ok v ->
            select_relevant_document question summaries w
              = (parse_scores content, w1)
            /\ parse_scores content <> Raise JSONDecodeError).
  { intros v Hv. pose proof (parse_scores_after_loads content v Hv) as Hno.
    split; [|exact Hno].
    rewrite select_relevant_document_unfold. cbv zeta. rewrite Hchat.
    destruct (parse_scores content) as [[best d]|[]]; try reflexivity.
    congruence. }
  split; [|split; [|split]].
  - intros Hv. destruct (Hpass _ Hv) as [-> _].
    unfold parse_scores. rewrite Hv. reflexivity.
  - intros Hv ->. rewrite select_relevant_document_unfold. cbv zeta.
    rewrite Hchat. unfold parse_scores. rewrite Hv. reflexivity.
  - exact Hpass.
  - intros e Hv Hne. rewrite select_relevant_document_unfold. cbv zeta.
    rewrite Hchat. unfold parse_scores. rewrite Hv. cbn [rbind].
    destruct e; try reflexivity. congruence.
Qed.

End SelectionProperties.

Lemma malformed_scores_fall_back_witness :
  fst (@select_relevant_document
         (scripted_runtime [Ok "Sure! Here are the scores: a=10"] json_fixture)
         "which one?" three_summaries (initial_world (test_config 3)))
  = Ok ("a", [("a", PInt 0); ("b", PInt 0); ("c", PInt 0)]).
Proof.
  destruct (@malformed_scores_fall_back
              (scripted_runtime [Ok "Sure! Here are the scores: a=10"] json_fixture)
              "which one?" three_summaries (initial_world (test_config 3))
              "Sure! Here are the scores: a=10"
              ltac:(discriminate) eq_refl eq_refl)
    as (first & w' & Hfirst & Hrun & _).
  rewrite Hrun. cbn in Hfirst. injection Hfirst as <-. reflexivity.
Defined.

Lemma numeric_scores_pick_maximum_witness :
  exists best,
    fst (@select_relevant_document
           (scripted_runtime [Ok good_body] json_fixture)
           "which one?" three_summaries (initial_world (test_config 3)))
    = Ok (best, good_scores)
    /\ picked_maximum good_scores best.
Proof.
  destruct (@numeric_scores_pick_maximum
              (scripted_runtime [Ok good_body] json_fixture)
              "which one?" three_summaries (initial_world (test_config 3))
              good_body good_scores eq_refl eq_refl
              ltac:(discriminate)
              ltac:(repeat constructor))
    as (best & Hrun & Hmax).
  exists best. rewrite Hrun. split; [reflexivity | exact Hmax].
Defined.

(** C6 as stated fails on a NaN score: [max] keeps the first item when
    no later one compares greater, and nothing compares greater than
    NaN.  The body [{"a": NaN, "b": 1}] selects "a", whose score is not
    at least the score of "b". *)
Lemma nan_score_selected_counterexample :
  fst (@select_relevant_document
         (scripted_runtime [Ok nan_body] json_fixture)
         "which one?" three_summaries (initial_world (test_config 3)))
  = Ok ("a", nan_scores)
  /\ nan_scores <> []
  /\ ~ picked_maximum nan_scores "a".
Proof.
  split; [vm_compute; reflexivity|]. split; [discriminate|].
  intros (top & Hin & Hall).
  destruct Hin as [Hin|[Hin|[]]]; [|discriminate].
  injection Hin as <-.
  specialize (Hall "b" (PInt 1) (or_intror (or_introl eq_refl))).
  discriminate.
Qed.

Lemma fallback_only_on_json_decode_error_witness :
  @select_relevant_document
    (scripted_runtime [Ok "{}"] json_fixture)
    "which one?" three_summaries (initial_world (test_config 3))
  = (Raise ValueError,
     sent (relevance_request (test_config 3) "which one?" three_summaries)
          (initial_world (test_config 3))).
Proof.
  destruct (@fallback_only_on_json_decode_error
              (scripted_runtime [Ok "{}"] json_fixture)
              "which one?" three_summaries (initial_world (test_config 3))
              "{}" eq_refl) as [Hempty _].
  exact (Hempty eq_refl).
Defined.

(** The other failure of C10: no summaries and a body that does not parse. *)
Example fallback_without_summaries_raises :
  fst (@select_relevant_document
         (scripted_runtime [Ok "not json"] json_fixture)
         "which one?" empty (initial_world (test_config 3)))
  = Raise IndexError.
Proof. reflexivity. Qed.

(** A body that is valid JSON but not an object has no [items]. *)
Example list_body_raises_attribute_error :
  fst (@select_relevant_document
         (scripted_runtime [Ok "[]"] json_fixture)
         "which one?" three_summaries (initial_world (test_config 3)))
  = Raise AttributeError.
Proof. reflexivity. Qed.

(** Ties keep the first of the equal scores. *)
Example tie_keeps_first :
  fst (@select_relevant_document
         (scripted_runtime [Ok good_body] json_fixture)
         "which one?" three_summaries (initial_world (test_config 3)))
  = Ok ("b", good_scores).
Proof. vm_compute. reflexivity. Qed.

(** * Further properties of the script *)

(** ** More on chunking *)

Lemma full_groups_length (m : Z) (full : list (list token)) :
  Forall (fun g => token_length g = m) full ->
  token_length (List.concat full) = m * Z.of_nat (List.length full).
Proof.
  unfold token_length. induction 1 as [|g rest Hg Hrest IH]; cbn [List.concat List.length].
  - lia.
  - rewrite length_app. lia.
Qed.

Lemma token_groups_count (m : Z) (tokens : list token) :
  1 <= m ->
  Z.of_nat (List.length (token_groups m tokens))
  = groups_needed (token_length tokens) m.
Proof.
  intros Hm. unfold groups_needed.
  pose proof (token_groups_concat m tokens) as Hcat.
  destruct (token_groups_shape m tokens Hm)
    as [E | (full & last & E & Hfull & Hlast)]; rewrite E in *.
  - cbn in Hcat. subst tokens. cbn.
    symmetry. apply Z.div_small. lia.
  - assert (Hn : token_length tokens
                 = m * Z.of_nat (List.length full) + token_length last).
    { rewrite <- Hcat, List.concat_app. cbn [List.concat].
      rewrite app_nil_r. unfold token_length at 1. rewrite length_app.
      rewrite Nat2Z.inj_add. fold (token_length (List.concat full)).
      fold (token_length last). rewrite (full_groups_length m full Hfull).
      reflexivity. }
    rewrite Hn, length_app, Nat2Z.inj_add. cbn [List.length].
    apply Z.div_unique with (r := token_length last - 1).
    + left. lia.
    + lia.
Qed.

Lemma token_groups_nonpositive_tail (m : Z) (rest : list token) :
  m <= 0 ->
  forall gs t,
    group gs = [t] -> group_length gs = 1 ->
    group_finish (fold_left (group_step m) rest gs)
    = (groups gs ++ map (fun t => [t]) (t :: rest))%list.
Proof.
  intros Hm. induction rest as [|t' rest IH]; intros gs t Hg Hl.
  - cbn. unfold group_finish. rewrite Hg. reflexivity.
  - cbn [fold_left]. rewrite (IH _ t').
    + unfold group_step. rewrite Hl.
      destruct (1 >=? m) eqn:E; [|rewrite Z.geb_leb in E; apply Z.leb_gt in E; lia].
      cbn. rewrite Hg, <- app_assoc. reflexivity.
    + unfold group_step. rewrite Hl.
      destruct (1 >=? m) eqn:E; [|rewrite Z.geb_leb in E; apply Z.leb_gt in E; lia].
      reflexivity.
    + unfold group_step. rewrite Hl.
      destruct (1 >=? m) eqn:E; [|rewrite Z.geb_leb in E; apply Z.leb_gt in E; lia].
      reflexivity.
Qed.

Lemma token_groups_nonpositive (m : Z) (t : token) (rest : list token) :
  m <= 0 ->
  token_groups m (t :: rest) = [] :: map (fun t => [t]) (t :: rest).
Proof.
  intros Hm. unfold token_groups. cbn [fold_left].
  rewrite (token_groups_nonpositive_tail m rest Hm _ t).
  - unfold group_step. cbn.
    destruct (0 >=? m) eqn:E; [|rewrite Z.geb_leb in E; apply Z.leb_gt in E; lia].
    reflexivity.
  - unfold group_step. cbn.
    destruct (0 >=? m) eqn:E; [|rewrite Z.geb_leb in E; apply Z.leb_gt in E; lia].
    reflexivity.
  - unfold group_step. cbn.
    destruct (0 >=? m) eqn:E; [|rewrite Z.geb_leb in E; apply Z.leb_gt in E; lia].
    reflexivity.
Qed.

Section MoreChunking.

Context {TK : Tokenizer}.

(** X1. With a bound of at least one, [split_text_into_chunks] returns
    exactly the rounded-up quotient of the token count by the bound
    many chunks. *)
Theorem split_chunk_count (cfg : config) (text : string) (mt : option Z)
    (tokens : list token) :
  1 <= effective_max cfg mt ->
  encode text = Ok tokens ->
  exists chunks,
    split_text_into_chunks cfg text mt = Ok chunks
    /\ Z.of_nat (List.length chunks)
       = groups_needed (token_length tokens) (effective_max cfg mt).
Proof.
  intros Hm He. eexists. split.
  - apply split_text_decodes_groups, He.
  - rewrite length_map. apply token_groups_count, Hm.
Qed.

(** X2. With a bound of zero or less, a text with at least one token
    comes back as an empty first chunk (the decoding of no tokens)
    followed by one chunk per token. *)
Theorem split_nonpositive_bound (cfg : config) (text : string) (mt : option Z)
    (t : token) (rest : list token) :
  effective_max cfg mt <= 0 ->
  encode text = Ok (t :: rest) ->
  split_text_into_chunks cfg text mt
  = Ok (decode [] :: map (fun t => decode [t]) (t :: rest)).
Proof.
  intros Hm He. rewrite (split_text_decodes_groups cfg text mt _ He).
  rewrite token_groups_nonpositive by exact Hm.
  cbn [map]. rewrite map_map. reflexivity.
Qed.

(** X3. Whatever the bound, the list of chunks is empty exactly when
    the text has no tokens. *)
Theorem split_empty_iff_no_tokens (cfg : config) (text : string)
    (mt : option Z) (tokens : list token) :
  encode text = Ok tokens ->
  exists chunks,
    split_text_into_chunks cfg text mt = Ok chunks
    /\ (chunks = [] <-> tokens = []).
Proof.
  intros He. eexists. split; [apply split_text_decodes_groups, He|].
  pose proof (token_groups_concat (effective_max cfg mt) tokens) as Hcat.
  split.
  - intros H. apply map_eq_nil in H. rewrite H in Hcat. symmetry. exact Hcat.
  - intros ->. reflexivity.
Qed.

(** X4. A text whose token count is between one and the bound comes
    back as a single chunk, the decoding of all its tokens. *)
Theorem split_short_text_single_chunk (cfg : config) (text : string)
    (mt : option Z) (tokens : list token) :
  encode text = Ok tokens ->
  1 <= token_length tokens <= effective_max cfg mt ->
  split_text_into_chunks cfg text mt = Ok [decode tokens].
Proof.
  intros He [Hlo Hhi].
  rewrite (split_text_decodes_groups cfg text mt _ He). f_equal.
  assert (Hm : 1 <= effective_max cfg mt) by lia.
  pose proof (token_groups_concat (effective_max cfg mt) tokens) as Hcat.
  destruct (token_groups_shape (effective_max cfg mt) tokens Hm)
    as [E | (full & last & E & Hfull & Hlast)]; rewrite E in *.
  - cbn in Hcat. subst tokens. unfold token_length in Hlo. cbn in Hlo. lia.
  - destruct full as [|g full].
    + cbn in Hcat. rewrite app_nil_r in Hcat. subst last. reflexivity.
    + exfalso. pose proof (Forall_inv Hfull) as Hg. cbn beta in Hg.
      apply (f_equal token_length) in Hcat. unfold token_length in *.
      cbn [List.concat app] in Hcat. rewrite List.concat_app in Hcat.
      cbn [List.concat] in Hcat. rewrite !length_app in Hcat. lia.
Qed.

Lemma join_decoded_groups (gs : list (list token)) :
  (forall a b, decode (a ++ b)%list = decode a ++ decode b) ->
  join (map decode gs) = decode (List.concat gs).
Proof.
  intros Hhom.
  assert (Hnil : decode [] = "").
  { pose proof (Hhom [] []) as H. cbn in H.
    apply (f_equal String.length) in H. rewrite length_append in H.
    destruct (decode []); [reflexivity | cbn in H; lia]. }
  induction gs as [|g gs IH]; cbn.
  - symmetry. exact Hnil.
  - rewrite Hhom. f_equal. exact IH.
Qed.

(** X5. If decoding distributes over concatenation of token lists and
    decoding the encoding of the text gives the text back, then joining
    the returned chunks gives the text back, for every bound. *)
Theorem split_chunks_rejoin (cfg : config) (text : string) (mt : option Z)
    (tokens : list token) :
  (forall a b, decode (a ++ b)%list = decode a ++ decode b) ->
  encode text = Ok tokens ->
  decode tokens = text ->
  exists chunks,
    split_text_into_chunks cfg text mt = Ok chunks /\ join chunks = text.
Proof.
  intros Hhom He Hround. eexists. split.
  - apply split_text_decodes_groups, He.
  - rewrite (join_decoded_groups _ Hhom), token_groups_concat. exact Hround.
Qed.

End MoreChunking.

Lemma byte_decode_app (a b : list token) :
  @decode byte_tokenizer (a ++ b)%list
  = @decode byte_tokenizer a ++ @decode byte_tokenizer b.
Proof.
  cbn. induction a as [|t a IH]; cbn; [reflexivity|]. f_equal. exact IH.
Qed.

Lemma split_chunk_count_witness :
  exists chunks,
    @split_text_into_chunks byte_tokenizer (test_config 3) "abcdefg" None
      = Ok chunks
    /\ Z.of_nat (List.length chunks) = 3.
Proof.
  apply (@split_chunk_count byte_tokenizer (test_config 3) "abcdefg" None
           [97; 98; 99; 100; 101; 102; 103]).
  - cbn. lia.
  - reflexivity.
Defined.

Lemma split_nonpositive_bound_witness :
  @split_text_into_chunks byte_tokenizer (test_config (-5)) "ab" None
  = Ok [""; "a"; "b"].
Proof.
  apply (@split_nonpositive_bound byte_tokenizer (test_config (-5)) "ab" None
           97 [98]).
  - cbn. lia.
  - reflexivity.
Defined.

Lemma split_empty_iff_no_tokens_witness :
  exists chunks,
    @split_text_into_chunks byte_tokenizer (test_config 3) "" None = Ok chunks
    /\ (chunks = [] <-> @nil token = []).
Proof.
  apply (@split_empty_iff_no_tokens byte_tokenizer (test_config 3) "" None []).
  reflexivity.
Defined.

Lemma split_short_text_single_chunk_witness :
  @split_text_into_chunks byte_tokenizer (test_config 3) "abc" None
  = Ok ["abc"].
Proof.
  apply (@split_short_text_single_chunk byte_tokenizer (test_config 3) "abc"
           None [97; 98; 99]).
  - reflexivity.
  - cbn. lia.
Defined.

Lemma split_chunks_rejoin_witness :
  exists chunks,
    @split_text_into_chunks byte_tokenizer (test_config 2) "abcde" None
      = Ok chunks
    /\ join chunks = "abcde".
Proof.
  apply (@split_chunks_rejoin byte_tokenizer (test_config 2) "abcde" None
           [97; 98; 99; 100; 101]).
  - exact byte_decode_app.
  - reflexivity.
  - reflexivity.
Defined.

(** ** More on PDF extraction *)

Lemma sum_tokens_from (ns : list Z) (acc : Z) :
  fold_left Z.add ns acc = acc + sum_tokens ns.
Proof.
  unfold sum_tokens. revert acc.
  induction ns as [|n ns IH]; intros acc; cbn; [lia|].
  rewrite IH, (IH n). lia.
Qed.

Lemma sum_group_lengths (gs : list (list token)) :
  sum_tokens (map token_length gs) = token_length (List.concat gs).
Proof.
  induction gs as [|g gs IH]; [reflexivity|].
  unfold sum_tokens. cbn [map fold_left List.concat].
  rewrite sum_tokens_from, IH. unfold token_length. rewrite length_app. lia.
Qed.

Lemma append_empty_r (s : string) : s ++ "" = s.
Proof. induction s as [|c s IH]; cbn; congruence. Qed.

Lemma append_associative (a b c : string) : (a ++ b) ++ c = a ++ (b ++ c).
Proof. induction a as [|x a IH]; cbn; congruence. Qed.

Section MoreExtraction.

Context {TK : Tokenizer} {PDF : PdfLibrary}.

Lemma count_each_length (cs : list string) (ns : list Z) :
  count_each cs = Ok ns -> List.length ns = List.length cs.
Proof.
  revert ns. induction cs as [|c cs IH]; intros ns H; cbn in H.
  - injection H as <-. reflexivity.
  - destruct (count_tokens c) as [n|e]; [|discriminate]. cbn in H.
    destruct (count_each cs) as [ns'|e]; [|discriminate]. cbn in H.
    injection H as <-. cbn. f_equal. apply IH. reflexivity.
Qed.

Lemma count_each_round_trip (gs : list (list token)) :
  (forall g, In g gs -> encode (decode g) = Ok g) ->
  count_each (map decode gs) = Ok (map token_length gs).
Proof.
  induction gs as [|g gs IH]; intros H; [reflexivity|].
  cbn [map count_each]. unfold count_tokens at 1.
  rewrite (H g (or_introl eq_refl)). cbn [rbind].
  rewrite IH by (intros g' Hg'; apply H; right; exact Hg').
  reflexivity.
Qed.

Lemma read_pages_all (pages : list page) (texts : list string) :
  Forall2 (fun p t => extract_text p = Ok t) pages texts ->
  forall full_text, read_pages full_text pages = Ok (full_text ++ join texts).
Proof.
  induction 1 as [|p t pages texts Hp _ IH]; intros full_text;
    cbn [read_pages join fold_right].
  - rewrite append_empty_r. reflexivity.
  - rewrite Hp. cbn [rbind]. rewrite IH, append_associative. reflexivity.
Qed.

Lemma read_pages_failure (before after : list page) (p : page) (e : exn) :
  Forall (fun q => exists t, extract_text q = Ok t) before ->
  extract_text p = Raise e ->
  forall full_text,
    read_pages full_text (before ++ p :: after)%list = Raise e.
Proof.
  intros Hb Hp. induction Hb as [|q before [t Hq] _ IH]; intros full_text; cbn.
  - rewrite Hp. reflexivity.
  - rewrite Hq. cbn [rbind]. apply IH.
Qed.

(** X6. Whenever [extract_text_from_pdf] returns, it returns as many
    token counts as chunks, so the [zip] of [process_document_chunks]
    drops nothing. *)
Theorem extract_lists_same_length (cfg : config) (f : pdf_file)
    (chunks : list string) (chunk_tokens : list Z) :
  extract_text_from_pdf cfg f = Ok (chunks, chunk_tokens) ->
  List.length chunk_tokens = List.length chunks.
Proof.
  unfold extract_text_from_pdf. intros H.
  destruct (PdfReader f) as [pages|e]; [|discriminate]. cbn [rbind] in H.
  destruct (read_pages "" pages) as [full_text|e]; [|discriminate].
  cbn [rbind] in H.
  destruct (count_tokens full_text) as [total|e]; [|discriminate].
  cbn [rbind] in H.
  destruct (total >? max_chunk_tokens cfg).
  - destruct (split_text_into_chunks cfg full_text None) as [cs|e];
      [|discriminate]. cbn [rbind] in H.
    destruct (count_each cs) as [ns|e] eqn:E; [|discriminate]. cbn [rbind] in H.
    injection H as <- <-. apply count_each_length, E.
  - injection H as <- <-. reflexivity.
Qed.

(** X7. The text that is counted and chunked is the texts of the pages
    joined in page order, with nothing between them: under the
    threshold the single chunk is exactly that join. *)
Theorem extract_joins_pages (cfg : config) (f : pdf_file)
    (pages : list page) (texts : list string) (total_tokens : Z) :
  PdfReader f = Ok pages ->
  Forall2 (fun p t => extract_text p = Ok t) pages texts ->
  count_tokens (join texts) = Ok total_tokens ->
  total_tokens <= max_chunk_tokens cfg ->
  extract_text_from_pdf cfg f = Ok ([join texts], [total_tokens]).
Proof.
  intros Hr Hp Hc Hle. unfold extract_text_from_pdf. rewrite Hr. cbn [rbind].
  rewrite (read_pages_all pages texts Hp ""). cbn [append rbind].
  rewrite Hc. cbn [rbind].
  destruct (total_tokens >? max_chunk_tokens cfg) eqn:E; [|reflexivity].
  apply Z.gtb_lt in E. lia.
Qed.

(** X8. One page whose text cannot be extracted fails the whole file
    with that page's exception, however many pages came before it. *)
Theorem extract_page_failure (cfg : config) (f : pdf_file)
    (before after : list page) (p : page) (e : exn) :
  PdfReader f = Ok (before ++ p :: after)%list ->
  Forall (fun q => exists t, extract_text q = Ok t) before ->
  extract_text p = Raise e ->
  extract_text_from_pdf cfg f = Raise e.
Proof.
  intros Hr Hb Hp. unfold extract_text_from_pdf. rewrite Hr. cbn [rbind].
  rewrite (read_pages_failure before after p e Hb Hp). reflexivity.
Qed.

(** X9. With a threshold of at least one, a text over the threshold
    never comes back as a single chunk: the chunking branch returns at
    least two. *)
Theorem extract_over_threshold_splits (cfg : config) (f : pdf_file)
    (pages : list page) (full_text : string) (tokens : list token)
    (chunks : list string) (chunk_tokens : list Z) :
  PdfReader f = Ok pages ->
  read_pages "" pages = Ok full_text ->
  encode full_text = Ok tokens ->
  1 <= max_chunk_tokens cfg < token_length tokens ->
  extract_text_from_pdf cfg f = Ok (chunks, chunk_tokens) ->
  (2 <= List.length chunks)%nat.
Proof.
  intros Hr Hp He [Hm Hover] H. unfold extract_text_from_pdf in H.
  rewrite Hr in H. cbn [rbind] in H. rewrite Hp in H. cbn [rbind] in H.
  unfold count_tokens in H. rewrite He in H. cbn [rbind] in H.
  fold (token_length tokens) in H.
  destruct (token_length tokens >? max_chunk_tokens cfg) eqn:E;
    [|rewrite Z.gtb_ltb in E; apply Z.ltb_ge in E; lia].
  rewrite (split_text_decodes_groups cfg full_text None tokens He) in H.
  cbn [rbind effective_max] in H.
  destruct (count_each _) as [ns|e'] in H; [|discriminate]. cbn [rbind] in H.
  injection H as <- _. rewrite length_map.
  pose proof (token_groups_count (max_chunk_tokens cfg) tokens Hm) as Hcount.
  unfold groups_needed in Hcount.
  assert (2 <= (token_length tokens + max_chunk_tokens cfg - 1)
               / max_chunk_tokens cfg).
  { apply Z.div_le_lower_bound; lia. }
  lia.
Qed.

(** X10. When every chunk encodes back to the tokens it was decoded
    from, the chunking branch reports for each chunk the size of its
    token group, and the reported counts add up to the token count of
    the whole text. *)
Theorem extract_counts_add_up (cfg : config) (f : pdf_file)
    (pages : list page) (full_text : string) (tokens : list token) :
  PdfReader f = Ok pages ->
  read_pages "" pages = Ok full_text ->
  encode full_text = Ok tokens ->
  max_chunk_tokens cfg < token_length tokens ->
  (forall g, In g (token_groups (max_chunk_tokens cfg) tokens) ->
     encode (decode g) = Ok g) ->
  exists chunks chunk_tokens,
    extract_text_from_pdf cfg f = Ok (chunks, chunk_tokens)
    /\ chunks = map decode (token_groups (max_chunk_tokens cfg) tokens)
    /\ chunk_tokens = map token_length (token_groups (max_chunk_tokens cfg) tokens)
    /\ sum_tokens chunk_tokens = token_length tokens.
Proof.
  intros Hr Hp He Hover Hround. do 2 eexists. split; [|split; [|split]];
    [|reflexivity|reflexivity|].
  - unfold extract_text_from_pdf.
    rewrite Hr. cbn [rbind]. rewrite Hp. cbn [rbind].
    unfold count_tokens at 1. rewrite He. cbn [rbind].
    fold (token_length tokens).
    destruct (token_length tokens >? max_chunk_tokens cfg) eqn:E;
      [|rewrite Z.gtb_ltb in E; apply Z.ltb_ge in E; lia].
    rewrite (split_text_decodes_groups cfg full_text None tokens He).
    cbn [rbind effective_max].
    rewrite (count_each_round_trip _ Hround). reflexivity.
  - rewrite sum_group_lengths, token_groups_concat. reflexivity.
Qed.

End MoreExtraction.

Lemma extract_lists_same_length_witness :
  List.length [3; 3; 1] = List.length ["abc"; "def"; "g"].
Proof.
  apply (@extract_lists_same_length byte_tokenizer outcome_pdf (test_config 3)
           (Ok [Ok "abcd"; Ok "efg"])).
  reflexivity.
Defined.

Lemma extract_joins_pages_witness :
  @extract_text_from_pdf byte_tokenizer outcome_pdf (test_config 5)
    (Ok [Ok "ab"; Ok ""; Ok "cd"]) = Ok (["abcd"], [4]).
Proof.
  apply (@extract_joins_pages byte_tokenizer outcome_pdf (test_config 5)
           (Ok [Ok "ab"; Ok ""; Ok "cd"]) [Ok "ab"; Ok ""; Ok "cd"]
           ["ab"; ""; "cd"] 4).
  - reflexivity.
  - repeat constructor.
  - reflexivity.
  - cbn. lia.
Defined.

Lemma extract_page_failure_witness :
  @extract_text_from_pdf byte_tokenizer outcome_pdf (test_config 5)
    (Ok [Ok "ab"; Raise (ExternalError "bad stream"); Ok "cd"])
  = Raise (ExternalError "bad stream").
Proof.
  apply (@extract_page_failure byte_tokenizer outcome_pdf (test_config 5)
           (Ok [Ok "ab"; Raise (ExternalError "bad stream"); Ok "cd"])
           [Ok "ab"] [Ok "cd"] (Raise (ExternalError "bad stream"))).
  - reflexivity.
  - constructor; [exists "ab"; reflexivity | constructor].
  - reflexivity.
Defined.

Lemma extract_over_threshold_splits_witness :
  (2 <= List.length ["abc"; "d"])%nat.
Proof.
  apply (@extract_over_threshold_splits byte_tokenizer outcome_pdf
           (test_config 3) (Ok [Ok "abcd"]) [Ok "abcd"] "abcd"
           [97; 98; 99; 100] ["abc"; "d"] [3; 1]).
  - reflexivity.
  - reflexivity.
  - reflexivity.
  - cbn. lia.
  - reflexivity.
Defined.

Lemma extract_counts_add_up_witness :
  exists chunks chunk_tokens,
    @extract_text_from_pdf byte_tokenizer outcome_pdf (test_config 3)
      (Ok [Ok "abcd"; Ok "efg"]) = Ok (chunks, chunk_tokens)
    /\ chunks = ["abc"; "def"; "g"]
    /\ chunk_tokens = [3; 3; 1]
    /\ sum_tokens chunk_tokens = 7.
Proof.
  apply (@extract_counts_add_up byte_tokenizer outcome_pdf (test_config 3)
           (Ok [Ok "abcd"; Ok "efg"]) [Ok "abcd"; Ok "efg"] "abcdefg"
           [97; 98; 99; 100; 101; 102; 103]).
  - reflexivity.
  - reflexivity.
  - reflexivity.
  - cbn. lia.
  - intros g Hg. cbn in Hg.
    repeat (destruct Hg as [<-|Hg]; [reflexivity|]). destruct Hg.
Defined.

(** ** More on chunk processing *)

Section MoreProcessing.

Context {RT : Runtime}.

Lemma get_summary_unfold (text : string) (w : world) :
  get_summary text w
  = (chat_completions_create (calls w) (summary_request (session_config w) text),
     sent (summary_request (session_config w) text) w).
Proof. reflexivity. Qed.

(** What a successful run of the loop sent and what it stored as
    summaries: one request per chunk, each answered on the history of
    the requests before it, the answers appended under the fresh names. *)
Lemma chunks_loop_responses (file_name : string) (n : nat)
    (zipped : list (string * Z)) :
  forall i docs sums tcs w d s t w',
    keys sums = keys docs -> keys tcs = keys docs ->
    NoDup (keys docs ++ map (chunk_name file_name n)
                            (seq i (List.length zipped)))%list ->
    chunks_loop file_name n i zipped docs sums tcs w = (Ok (d, s, t), w') ->
    let req := summary_request (session_config w) in
    calls w' = (calls w ++ map req (map fst zipped))%list
    /\ exists responses,
         s = (sums ++ combine (map (chunk_name file_name n)
                                   (seq i (List.length zipped))) responses)%list
         /\ List.length responses = List.length zipped
         /\ forall j c, nth_error (map fst zipped) j = Some c ->
              exists r,
                nth_error responses j = Some r
                /\ chat_completions_create
                     (calls w ++ map req (firstn j (map fst zipped)))%list
                     (req c) = Ok r.
Proof.
  induction zipped as [|[chunk tokens] rest IH];
    intros i docs sums tcs w d s t w' Hs Ht Hnd Hrun req; subst req.
  - cbn in Hrun. injection Hrun as <- <- <- <-. cbn. rewrite ?app_nil_r.
    split; [reflexivity|]. exists []. cbn. rewrite ?app_nil_r.
    split; [reflexivity|]. split; [reflexivity|].
    intros [|j] c H; discriminate.
  - cbn [chunks_loop] in Hrun. unfold mbind in Hrun.
    rewrite get_summary_unfold in Hrun.
    destruct (chat_completions_create (calls w)
                (summary_request (session_config w) chunk))
      as [summary|e] eqn:Echat; [|discriminate].
    fold (chunk_name file_name n i) in Hrun.
    cbn [List.length seq map] in Hnd |- *.
    assert (Hfresh : ~ In (chunk_name file_name n i) (keys docs)).
    { intros Hin. apply NoDup_remove_2 in Hnd. apply Hnd.
      apply in_or_app. left. exact Hin. }
    rewrite (set_absent _ chunk docs Hfresh) in Hrun.
    rewrite (set_absent _ tokens tcs) in Hrun by (rewrite Ht; exact Hfresh).
    rewrite (set_absent _ summary sums) in Hrun by (rewrite Hs; exact Hfresh).
    apply IH in Hrun.
    + cbn [sent calls session_config] in Hrun.
      destruct Hrun as (Hcalls & responses & Hsum & Hlen & Hresp).
      split; [rewrite Hcalls, <- app_assoc; reflexivity|].
      exists (summary :: responses). split; [|split].
      * rewrite Hsum, <- app_assoc. reflexivity.
      * cbn. rewrite Hlen. reflexivity.
      * intros [|j] c Hc; cbn [nth_error firstn map fst] in *.
        -- injection Hc as <-. exists summary. rewrite app_nil_r. auto.
        -- destruct (Hresp j c Hc) as (r & Hr & Hchat). exists r.
           split; [exact Hr|]. rewrite <- app_assoc in Hchat. exact Hchat.
    + unfold keys in *. rewrite !map_app, Hs. reflexivity.
    + unfold keys in *. rewrite !map_app, Ht. reflexivity.
    + unfold keys in *. rewrite map_app, <- app_assoc. cbn. exact Hnd.
Qed.

Lemma chunks_loop_failure (file_name : string) (n : nat)
    (zipped : list (string * Z)) :
  forall j i docs sums tcs w c e,
    let req := summary_request (session_config w) in
    nth_error (map fst zipped) j = Some c ->
    (forall k c', (k < j)%nat -> nth_error (map fst zipped) k = Some c' ->
       exists s, chat_completions_create
                   (calls w ++ map req (firstn k (map fst zipped)))%list
                   (req c') = Ok s) ->
    chat_completions_create
      (calls w ++ map req (firstn j (map fst zipped)))%list (req c) = Raise e ->
    fst (chunks_loop file_name n i zipped docs sums tcs w) = Raise e
    /\ calls (snd (chunks_loop file_name n i zipped docs sums tcs w))
       = (calls w ++ map req (firstn (S j) (map fst zipped)))%list.
Proof.
  induction zipped as [|[chunk tokens] rest IH];
    intros j i docs sums tcs w c e req Hc Hbefore Hfail; subst req.
  - destruct j; discriminate.
  - cbn [chunks_loop]. unfold mbind. rewrite get_summary_unfold.
    destruct j as [|j]; cbn [nth_error firstn map fst] in *.
    + injection Hc as <-. rewrite app_nil_r in Hfail. rewrite Hfail.
      cbn. auto.
    + destruct (Hbefore 0%nat chunk (Nat.lt_0_succ j) eq_refl) as [s Hs].
      cbn in Hs. rewrite app_nil_r in Hs. rewrite Hs.
      match goal with
      | |- fst (chunks_loop _ _ _ _ ?d ?u ?t ?w1) = _ /\ _ =>
          destruct (IH j (S i) d u t w1 c e) as [I1 I2]
      end.
      * exact Hc.
      * intros k c' Hk Hc'. cbn [sent calls session_config].
        destruct (Hbefore (S k) c' (proj1 (Nat.succ_lt_mono k j) Hk) Hc')
          as [s' Hs'].
        exists s'. cbn [firstn map] in Hs'. rewrite <- app_assoc. exact Hs'.
      * cbn [sent calls session_config]. rewrite <- app_assoc. exact Hfail.
      * split; [exact I1|]. rewrite I2. cbn [sent calls session_config].
        rewrite <- app_assoc. reflexivity.
Qed.

Lemma combine_same_length_fst {A B : Type} (xs : list A) (ys : list B) :
  List.length ys = List.length xs -> map fst (combine xs ys) = xs.
Proof.
  revert ys. induction xs as [|x xs IH]; intros [|y ys] H; cbn in *;
    try discriminate; [reflexivity|]. f_equal. apply IH. lia.
Qed.

(** X11. A successful [process_document_chunks] has sent exactly one
    summary request per chunk, in chunk order, and the summary stored
    under the name of chunk [j] is the model's answer to the request for
    chunk [j], given the requests before it. *)
Theorem one_summary_request_per_chunk (file_name : string)
    (chunks : list string) (chunk_tokens : list Z) (w w' : world)
    (docs sums : dict string) (tcs : dict Z) :
  List.length chunk_tokens = List.length chunks ->
  process_document_chunks file_name chunks chunk_tokens w
    = (Ok (docs, sums, tcs), w') ->
  calls w'
  = (calls w ++ map (summary_request (session_config w)) chunks)%list
  /\ forall j c, nth_error chunks j = Some c ->
       exists r,
         chat_completions_create
           (calls w ++ map (summary_request (session_config w))
                           (firstn j chunks))%list
           (summary_request (session_config w) c) = Ok r
         /\ get (chunk_name file_name (List.length chunks) j) sums = Some r.
Proof.
  intros Hlen Hrun. unfold process_document_chunks in Hrun.
  assert (Hk : List.length (combine chunks chunk_tokens) = List.length chunks).
  { rewrite length_combine. lia. }
  pose proof (chunk_names_nodup file_name (List.length chunks)
                (List.length chunks) (le_n _)) as Hnd.
  apply chunks_loop_responses in Hrun;
    [|reflexivity|reflexivity|cbn; rewrite Hk; exact Hnd].
  cbn zeta in Hrun. rewrite Hk, (combine_same_length_fst _ _ Hlen) in Hrun.
  destruct Hrun as (Hcalls & responses & Hsum & Hrl & Hresp).
  split; [exact Hcalls|]. intros j c Hc.
  destruct (Hresp j c Hc) as (r & Hr & Hchat). exists r.
  split; [exact Hchat|]. cbn [empty app] in Hsum. rewrite Hsum.
  eapply get_combine_nodup; [exact Hnd| |exact Hr].
  assert (Hlt : (j < List.length chunks)%nat)
    by (apply nth_error_Some; congruence).
  rewrite nth_error_map, nth_error_seq.
  apply Nat.ltb_lt in Hlt. rewrite Hlt. reflexivity.
Qed.

(** X12. If the model answers the requests for the chunks before chunk
    [j] and fails on the request for chunk [j], then
    [process_document_chunks] raises that exception, having sent the
    requests for chunks up to and including [j] and none after. *)
Theorem summary_failure_stops_processing (file_name : string)
    (chunks : list string) (chunk_tokens : list Z) (w : world)
    (j : nat) (c : string) (e : exn) :
  List.length chunk_tokens = List.length chunks ->
  nth_error chunks j = Some c ->
  (forall k c', (k < j)%nat -> nth_error chunks k = Some c' ->
     exists s, chat_completions_create
                 (calls w ++ map (summary_request (session_config w))
                                 (firstn k chunks))%list
                 (summary_request (session_config w) c') = Ok s) ->
  chat_completions_create
    (calls w ++ map (summary_request (session_config w)) (firstn j chunks))%list
    (summary_request (session_config w) c) = Raise e ->
  fst (process_document_chunks file_name chunks chunk_tokens w) = Raise e
  /\ calls (snd (process_document_chunks file_name chunks chunk_tokens w))
     = (calls w ++ map (summary_request (session_config w))
                       (firstn (S j) chunks))%list.
Proof.
  intros Hlen Hc Hbefore Hfail. unfold process_document_chunks.
  pose proof (combine_same_length_fst chunks chunk_tokens Hlen) as Hfst.
  pose proof (chunks_loop_failure file_name (List.length chunks)
                (combine chunks chunk_tokens) j 0%nat empty empty empty w c e)
    as H.
  cbn zeta in H. rewrite Hfst in H. apply H; assumption.
Qed.

End MoreProcessing.

Lemma one_summary_request_per_chunk_witness :
  exists r,
    @chat_completions_create (scripted_runtime [Ok "first"; Ok "second"] [])
      (map (summary_request (test_config 1)) (firstn 1 ["x"; "y"]))
      (summary_request (test_config 1) "y") = Ok r
    /\ get (chunk_name "a.pdf" 2 1)
           [("a.pdf (Part 1/2)", "first"); ("a.pdf (Part 2/2)", "second")]
       = Some r.
Proof.
  exact (proj2 (@one_summary_request_per_chunk
                  (scripted_runtime [Ok "first"; Ok "second"] [])
                  "a.pdf" ["x"; "y"] [1; 1]
                  (initial_world (test_config 1)) _ _ _ _
                  eq_refl eq_refl) 1%nat "y" eq_refl).
Defined.

Lemma summary_failure_stops_processing_witness :
  fst (@process_document_chunks
         (scripted_runtime [Ok "first"; Raise (ExternalError "rate limit")] [])
         "a.pdf" ["x"; "y"; "z"] [1; 1; 1] (initial_world (test_config 1)))
  = Raise (ExternalError "rate limit")
  /\ calls (snd (@process_document_chunks
         (scripted_runtime [Ok "first"; Raise (ExternalError "rate limit")] [])
         "a.pdf" ["x"; "y"; "z"] [1; 1; 1] (initial_world (test_config 1))))
     = map (summary_request (test_config 1)) ["x"; "y"].
Proof.
  apply (@summary_failure_stops_processing
           (scripted_runtime [Ok "first"; Raise (ExternalError "rate limit")] [])
           "a.pdf" ["x"; "y"; "z"] [1; 1; 1] (initial_world (test_config 1))
           1%nat "y" (ExternalError "rate limit")).
  - reflexivity.
  - reflexivity.
  - intros [|k] c' Hk Hc'; [|lia]. injection Hc' as <-.
    exists "first". reflexivity.
  - reflexivity.
Defined.

(** ** More on relevance selection *)

Lemma float_gt_trans (a b c : pyfloat) :
  float_gt a b = true -> float_gt b c = true -> float_gt a c = true.
Proof.
  destruct a as [|[]|p], b as [|[]|q], c as [|[]|r]; cbn;
    intros H1 H2; try reflexivity; try discriminate.
  apply negb_true_iff in H1, H2. apply negb_true_iff.
  destruct (Qle_bool p r) eqn:E; [|reflexivity]. exfalso.
  apply Qle_bool_iff in E.
  destruct (Qlt_le_dec q p) as [Hqp|Hpq];
    [|apply Qle_bool_iff in Hpq; congruence].
  destruct (Qlt_le_dec r q) as [Hrq|Hqr];
    [|apply Qle_bool_iff in Hqr; congruence].
  apply (Qlt_irrefl r). eapply Qlt_le_trans; [|exact E].
  eapply Qlt_trans; eassumption.
Qed.

Lemma float_gt_ge_trans (a b c : pyfloat) :
  float_gt a b = true -> float_ge b c = true -> float_gt a c = true.
Proof.
  destruct a as [|[]|p], b as [|[]|q], c as [|[]|r]; cbn;
    intros H1 H2; try reflexivity; try discriminate.
  apply negb_true_iff in H1. apply negb_true_iff.
  apply Qle_bool_iff in H2.
  destruct (Qle_bool p r) eqn:E; [|reflexivity]. exfalso.
  apply Qle_bool_iff in E.
  destruct (Qlt_le_dec q p) as [Hqp|Hpq];
    [|apply Qle_bool_iff in Hpq; congruence].
  apply (Qlt_irrefl q). eapply Qlt_le_trans; [exact Hqp|].
  eapply Qle_trans; eassumption.
Qed.

Section MoreSelection.

Context {RT : Runtime}.

Lemma max_scan_member (rest : list (string * pyval)) :
  forall best r, max_scan best rest = Ok r -> In r (best :: rest).
Proof.
  induction rest as [|item rest IH]; intros best r H; cbn [max_scan] in H.
  - injection H as <-. left. reflexivity.
  - destruct (py_gt (snd item) (snd best)) as [greater|e]; [|discriminate].
    cbn [rbind] in H. apply IH in H.
    destruct greater; cbn in *; tauto.
Qed.

(** The scan keeps the first of the greatest: everything before the
    result is strictly smaller, everything after is at most as large. *)
Lemma max_scan_first_greatest (rest : list (string * pyval)) :
  forall pre best mid,
    is_score (snd best) = true ->
    Forall (fun kv => is_score (snd kv) = true) rest ->
    (forall x, In x pre -> value_gt (snd best) (snd x) = true) ->
    (forall x, In x mid -> value_ge (snd best) (snd x) = true) ->
    exists r before after,
      max_scan best rest = Ok r
      /\ (pre ++ best :: mid ++ rest = before ++ r :: after)%list
      /\ (forall x, In x before -> value_gt (snd r) (snd x) = true)
      /\ (forall x, In x after -> value_ge (snd r) (snd x) = true).
Proof.
  induction rest as [|item rest IH]; intros pre best mid Hb Hall Hpre Hmid.
  - exists best, pre, mid. rewrite app_nil_r. cbn. auto.
  - inversion Hall as [|? ? Hi Hrest]; subst.
    destruct (py_gt_scores (snd item) (snd best) Hi Hb)
      as (x & y & Hx & Hy & Nx & Ny & Hgt).
    cbn [max_scan]. rewrite Hgt. cbn [rbind].
    destruct (float_gt x y) eqn:E.
    + destruct (IH (pre ++ best :: mid)%list item [] Hi Hrest)
        as (r & before & after & Hrun & Hsplit & Hbefore & Hafter).
      * intros z Hz. apply in_app_or in Hz.
        destruct Hz as [Hz|[<-|Hz]].
        -- specialize (Hpre z Hz). unfold value_gt in *.
           rewrite Hx. rewrite Hy in Hpre.
           destruct (as_number (snd z)); [|discriminate].
           eapply float_gt_trans; eassumption.
        -- unfold value_gt. rewrite Hx, Hy. exact E.
        -- specialize (Hmid z Hz). unfold value_gt, value_ge in *.
           rewrite Hx. rewrite Hy in Hmid.
           destruct (as_number (snd z)); [|discriminate].
           eapply float_gt_ge_trans; eassumption.
      * intros z [].
      * exists r, before, after. split; [exact Hrun|].
        split; [|auto]. rewrite <- Hsplit, <- !app_assoc. reflexivity.
    + destruct (IH pre best (mid ++ [item])%list Hb Hrest Hpre)
        as (r & before & after & Hrun & Hsplit & Hbefore & Hafter).
      * intros z Hz. apply in_app_or in Hz.
        destruct Hz as [Hz|[<-|[]]]; [apply Hmid, Hz|].
        unfold value_ge. rewrite Hx, Hy. apply float_not_gt_ge; assumption.
      * exists r, before, after. split; [exact Hrun|].
        split; [|auto]. rewrite <- Hsplit, <- !app_assoc. reflexivity.
Qed.

(** X13. Whatever the outcome (a selection, the fallback, or an
    exception), [select_relevant_document] sends exactly one request,
    the relevance request, and leaves the three session maps and the
    configuration as they were. *)
Theorem select_sends_one_request (question : string)
    (summaries : dict string) (w : world) :
  calls (snd (select_relevant_document question summaries w))
  = (calls w ++ [relevance_request (session_config w) question summaries])%list
  /\ same_maps w (snd (select_relevant_document question summaries w)).
Proof.
  rewrite select_relevant_document_unfold. cbv zeta.
  destruct (chat_completions_create _ _) as [content|e];
    [|split; [reflexivity | unfold same_maps; cbn; auto]].
  destruct (parse_scores content) as [[best d]|[]];
    try (split; [reflexivity | unfold same_maps; cbn; auto]).
  unfold fallback_scores, mbind. cbn [show].
  destruct (keys summaries); cbn;
    split; try reflexivity; unfold same_maps; cbn; auto.
Qed.

(** X14. An exception raised by the model call itself is outside the
    [try]: it leaves [select_relevant_document] unhandled, with no
    fallback and no message on the page, even when it is a
    [JSONDecodeError]. *)
Theorem model_failure_not_handled (question : string)
    (summaries : dict string) (w : world) (e : exn) :
  chat_completions_create (calls w)
    (relevance_request (session_config w) question summaries) = Raise e ->
  select_relevant_document question summaries w
  = (Raise e, sent (relevance_request (session_config w) question summaries) w).
Proof.
  intros H. rewrite select_relevant_document_unfold. cbv zeta. rewrite H.
  reflexivity.
Qed.

(** X15. When the body parses and a selection is returned, the selected
    name is a key of the parsed map, which is returned whole; it is not
    checked against the summaries. *)
Theorem selected_name_from_model (question : string)
    (summaries : dict string) (w w' : world) (content : string)
    (v : pyval) (best : string) (d : dict pyval) :
  chat_completions_create (calls w)
    (relevance_request (session_config w) question summaries) = Ok content ->
  json_loads content = Ok v ->
  select_relevant_document question summaries w = (Ok (best, d), w') ->
  v = PDict d /\ In best (keys d).
Proof.
  intros Hchat Hv Hrun.
  rewrite select_relevant_document_unfold in Hrun. cbv zeta in Hrun.
  rewrite Hchat in Hrun.
  pose proof (parse_scores_after_loads content v Hv) as Hno.
  destruct (parse_scores content) as [[b d0]|e] eqn:Ep.
  - injection Hrun as <- <- _. unfold parse_scores in Ep. rewrite Hv in Ep.
    cbn [rbind] in Ep.
    destruct v as [| | | | | |dv]; try discriminate.
    cbn [py_items rbind] in Ep.
    destruct (py_max_by_value dv) as [r|e] eqn:Em; [|discriminate].
    cbn [rbind] in Ep. injection Ep as <- <-. split; [reflexivity|].
    destruct dv as [|first rest]; [discriminate|]. cbn in Em.
    apply max_scan_member in Em. unfold keys. apply in_map, Em.
  - destruct e; try discriminate. congruence.
Qed.

(** X16. A parsed map with a single entry selects that entry whatever
    its value is: no comparison is made, so a word or a null score is
    accepted. *)
Theorem single_entry_selected (question : string)
    (summaries : dict string) (w : world) (content : string)
    (k : string) (v : pyval) :
  chat_completions_create (calls w)
    (relevance_request (session_config w) question summaries) = Ok content ->
  json_loads content = Ok (PDict [(k, v)]) ->
  select_relevant_document question summaries w
  = (Ok (k, [(k, v)]),
     sent (relevance_request (session_config w) question summaries) w).
Proof.
  intros Hchat Hv. rewrite select_relevant_document_unfold. cbv zeta.
  rewrite Hchat. unfold parse_scores. rewrite Hv. reflexivity.
Qed.

(** X17. On a map of scores the selected name is the first one, in the
    order of the model's JSON, that carries the greatest score: every
    entry before it is strictly smaller, every entry after it is at
    most as large. *)
Theorem first_greatest_selected (question : string)
    (summaries : dict string) (w : world) (content : string) (d : dict pyval) :
  chat_completions_create (calls w)
    (relevance_request (session_config w) question summaries) = Ok content ->
  json_loads content = Ok (PDict d) ->
  d <> [] ->
  Forall (fun kv => is_score (snd kv) = true) d ->
  exists best top before after,
    fst (select_relevant_document question summaries w) = Ok (best, d)
    /\ d = (before ++ (best, top) :: after)%list
    /\ (forall x, In x before -> value_gt top (snd x) = true)
    /\ (forall x, In x after -> value_ge top (snd x) = true).
Proof.
  intros Hchat Hv Hne Hscores.
  destruct d as [|first rest]; [congruence|].
  inversion Hscores as [|? ? Hf Hrest]; subst.
  destruct (max_scan_first_greatest rest [] first [] Hf Hrest)
    as ([best top] & before & after & Hrun & Hsplit & Hb & Ha).
  - intros x [].
  - intros x [].
  - exists best, top, before, after. split; [|auto].
    rewrite select_relevant_document_unfold. cbv zeta. rewrite Hchat.
    unfold parse_scores. rewrite Hv. cbn [rbind py_items py_max_by_value].
    rewrite Hrun. reflexivity.
Qed.

Lemma zero_scores_append (ks : list string) :
  forall acc : dict pyval,
    NoDup (keys acc ++ ks)%list ->
    fold_left (fun acc k => set k (PInt 0) acc) ks acc
    = (acc ++ map (fun k => (k, PInt 0)) ks)%list.
Proof.
  induction ks as [|k ks IH]; intros acc Hnd; cbn [fold_left map].
  - rewrite app_nil_r. reflexivity.
  - assert (Hfresh : ~ In k (keys acc)).
    { intros Hin. apply NoDup_remove_2 in Hnd. apply Hnd.
      apply in_or_app. left. exact Hin. }
    rewrite (set_absent k (PInt 0) acc Hfresh), IH.
    + rewrite <- app_assoc. reflexivity.
    + unfold keys in *. rewrite map_app, <- app_assoc. exact Hnd.
Qed.

(** X18. When the summaries hold no key twice, the score map of the
    fallback lists the summaries' keys in their order, each with 0. *)
Theorem fallback_scores_in_key_order (summaries : dict string) :
  NoDup (keys summaries) ->
  zero_scores summaries = map (fun k => (k, PInt 0)) (keys summaries).
Proof.
  intros Hnd. unfold zero_scores.
  rewrite zero_scores_append; [reflexivity | exact Hnd].
Qed.

(** X19. When the first two entries of the parsed map cannot be
    compared (one is not a number and Python refuses [>] on the pair),
    the call raises [TypeError]; the fallback does not run. *)
Theorem incomparable_scores_raise (question : string)
    (summaries : dict string) (w : world) (content : string)
    (first second : string * pyval) (rest : dict pyval) :
  chat_completions_create (calls w)
    (relevance_request (session_config w) question summaries) = Ok content ->
  json_loads content = Ok (PDict (first :: second :: rest)) ->
  as_number (snd second) = None \/ as_number (snd first) = None ->
  object_gt (snd second) (snd first) = None ->
  select_relevant_document question summaries w
  = (Raise TypeError,
     sent (relevance_request (session_config w) question summaries) w).
Proof.
  intros Hchat Hv Hnum Hobj. rewrite select_relevant_document_unfold.
  cbv zeta. rewrite Hchat. unfold parse_scores. rewrite Hv.
  cbn [rbind py_items py_max_by_value max_scan]. unfold py_gt.
  destruct Hnum as [H|H]; rewrite H.
  - rewrite Hobj. reflexivity.
  - destruct (as_number (snd second)); rewrite Hobj; reflexivity.
Qed.

End MoreSelection.

Lemma model_failure_not_handled_witness :
  fst (@select_relevant_document (scripted_runtime [Raise JSONDecodeError] [])
         "which one?" three_summaries (initial_world (test_config 3)))
  = Raise JSONDecodeError
  /\ screen (snd (@select_relevant_document
                    (scripted_runtime [Raise JSONDecodeError] [])
                    "which one?" three_summaries (initial_world (test_config 3))))
     = [].
Proof.
  rewrite (@model_failure_not_handled (scripted_runtime [Raise JSONDecodeError] [])
             "which one?" three_summaries (initial_world (test_config 3))
             JSONDecodeError eq_refl).
  split; reflexivity.
Defined.

Lemma selected_name_from_model_witness :
  PDict [("ghost.pdf", PInt 99)] = PDict [("ghost.pdf", PInt 99)]
  /\ In "ghost.pdf" (keys [("ghost.pdf", PInt 99)])
  /\ ~ In "ghost.pdf" (keys three_summaries).
Proof.
  destruct (@selected_name_from_model
              (scripted_runtime [Ok ghost_body] json_fixture2)
              "which one?" three_summaries (initial_world (test_config 3))
              _ ghost_body _ "ghost.pdf" [("ghost.pdf", PInt 99)]
              eq_refl eq_refl eq_refl) as [Hv Hin].
  split; [exact Hv|]. split; [exact Hin|].
  cbn. intros [H|[H|[H|[]]]]; discriminate.
Defined.

Lemma single_entry_selected_witness :
  fst (@select_relevant_document (scripted_runtime [Ok word_body] json_fixture2)
         "which one?" three_summaries (initial_world (test_config 3)))
  = Ok ("a", [("a", PStr "high")]).
Proof.
  rewrite (@single_entry_selected (scripted_runtime [Ok word_body] json_fixture2)
             "which one?" three_summaries (initial_world (test_config 3))
             word_body "a" (PStr "high") eq_refl eq_refl).
  reflexivity.
Defined.

Lemma first_greatest_selected_witness :
  exists best top before after,
    fst (@select_relevant_document (scripted_runtime [Ok good_body] json_fixture)
           "which one?" three_summaries (initial_world (test_config 3)))
    = Ok (best, good_scores)
    /\ good_scores = (before ++ (best, top) :: after)%list
    /\ (forall x, In x before -> value_gt top (snd x) = true)
    /\ (forall x, In x after -> value_ge top (snd x) = true).
Proof.
  apply (@first_greatest_selected (scripted_runtime [Ok good_body] json_fixture)
           "which one?" three_summaries (initial_world (test_config 3))
           good_body good_scores eq_refl eq_refl).
  - discriminate.
  - repeat constructor.
Defined.

Lemma fallback_scores_in_key_order_witness :
  zero_scores three_summaries = [("a", PInt 0); ("b", PInt 0); ("c", PInt 0)].
Proof.
  apply (fallback_scores_in_key_order three_summaries).
  repeat constructor; cbn; intuition discriminate.
Defined.

Lemma incomparable_scores_raise_witness :
  fst (@select_relevant_document (scripted_runtime [Ok mixed_body] json_fixture2)
         "which one?" three_summaries (initial_world (test_config 3)))
  = Raise TypeError.
Proof.
  rewrite (@incomparable_scores_raise
             (scripted_runtime [Ok mixed_body] json_fixture2)
             "which one?" three_summaries (initial_world (test_config 3))
             mixed_body ("a", PInt 10) ("b", PStr "high") []
             eq_refl eq_refl (or_introl eq_refl) eq_refl).
  reflexivity.
Defined.

(** ** More on the upload loop *)

Lemma add_key_nodup (k : string) (ks : list string) :
  NoDup ks -> NoDup (add_key k ks).
Proof.
  induction 1 as [|h rest Hnotin Hnd IH]; cbn.
  - constructor; [intros [] | constructor].
  - destruct (String.eqb_spec k h) as [->|Hne]; constructor; try assumption.
    rewrite in_add_key. intros [->|Hin]; contradiction.
Qed.

Lemma fold_add_key_nodup (new ks : list string) :
  NoDup ks -> NoDup (fold_left (fun ks k => add_key k ks) new ks).
Proof.
  revert ks. induction new as [|k new IH]; intros ks H; cbn; [exact H|].
  apply IH, add_key_nodup, H.
Qed.

Lemma in_fold_add_key_iff (k : string) (new ks : list string) :
  In k (fold_left (fun ks k => add_key k ks) new ks) <-> In k ks \/ In k new.
Proof.
  revert ks. induction new as [|h new IH]; intros ks; cbn.
  - tauto.
  - rewrite IH, in_add_key. intuition congruence.
Qed.

Lemma part_name_not_file_name (file_name : string) (i n : nat) :
  part_name file_name i n <> file_name.
Proof.
  unfold part_name. intros H. apply (f_equal String.length) in H.
  rewrite length_append in H. cbn in H. lia.
Qed.

Section MoreUpload.

Context {TK : Tokenizer} {PDF : PdfLibrary} {RT : Runtime}.

Lemma chunks_loop_extends (file_name : string) (n : nat)
    (zipped : list (string * Z)) :
  forall i docs sums tcs w,
    exists more,
      calls (snd (chunks_loop file_name n i zipped docs sums tcs w))
      = (calls w ++ more)%list.
Proof.
  induction zipped as [|[chunk tokens] rest IH]; intros i docs sums tcs w.
  - exists []. cbn. rewrite app_nil_r. reflexivity.
  - cbn [chunks_loop]. unfold mbind. rewrite get_summary_unfold.
    destruct (chat_completions_create _ _) as [summary|e].
    + match goal with
      | |- context [chunks_loop _ _ _ _ ?d ?s ?t ?w1] =>
          destruct (IH (S i) d s t w1) as [more Hmore]
      end.
      eexists. rewrite Hmore. cbn [sent calls]. rewrite <- app_assoc.
      reflexivity.
    + exists [summary_request (session_config w) chunk]. reflexivity.
Qed.

Lemma chunks_loop_first_request (file_name : string) (n i : nat)
    (chunk : string) (tokens : Z) (rest : list (string * Z))
    (docs sums : dict string) (tcs : dict Z) (w : world) :
  exists more,
    calls (snd (chunks_loop file_name n i ((chunk, tokens) :: rest)
                  docs sums tcs w))
    = (calls w ++ summary_request (session_config w) chunk :: more)%list.
Proof.
  cbn [chunks_loop]. unfold mbind. rewrite get_summary_unfold.
  destruct (chat_completions_create _ _) as [summary|e].
  - match goal with
    | |- context [chunks_loop _ _ _ _ ?d ?s ?t ?w1] =>
        destruct (chunks_loop_extends file_name n rest (S i) d s t w1)
          as [more Hmore]
    end.
    exists more. rewrite Hmore. cbn [sent calls]. rewrite <- app_assoc.
    reflexivity.
  - exists []. reflexivity.
Qed.

Lemma extract_same_length (cfg : config) (f : pdf_file)
    (chunks : list string) (chunk_tokens : list Z) :
  extract_text_from_pdf cfg f = Ok (chunks, chunk_tokens) ->
  List.length chunk_tokens = List.length chunks.
Proof.
  unfold extract_text_from_pdf. intros H.
  destruct (PdfReader f) as [pages|e]; [|discriminate]. cbn [rbind] in H.
  destruct (read_pages "" pages) as [full_text|e]; [|discriminate].
  cbn [rbind] in H.
  destruct (count_tokens full_text) as [total|e]; [|discriminate].
  cbn [rbind] in H.
  destruct (total >? max_chunk_tokens cfg).
  - destruct (split_text_into_chunks cfg full_text None) as [cs|e];
      [|discriminate]. cbn [rbind] in H.
    destruct (count_each cs) as [ns|e] eqn:E; [|discriminate]. cbn [rbind] in H.
    injection H as <- <-. apply count_each_length, E.
  - injection H as <- <-. reflexivity.
Qed.

(** One file that is not yet a key and whose text was extracted: the
    step is [process_document_chunks] on the extracted lists, run in a
    world that differs from the current one by page output only,
    followed by the three updates when it returns. *)
Lemma handle_file_after_extract (file : uploaded_file) (w : world)
    (chunks : list string) (chunk_tokens : list Z) :
  mem (name file) (documents w) = false ->
  extract_text_from_pdf (session_config w) (read file)
    = Ok (chunks, chunk_tokens) ->
  exists W,
    same_maps w W /\ calls W = calls w
    /\ match process_document_chunks (name file) chunks chunk_tokens W with
       | (Ok (d, s, t), w1) =>
           documents (snd (handle_file file w)) = update (documents w) d
           /\ summaries (snd (handle_file file w)) = update (summaries w) s
           /\ token_counts (snd (handle_file file w))
              = update (token_counts w) t
           /\ calls (snd (handle_file file w)) = calls w1
           /\ session_config (snd (handle_file file w)) = session_config w
       | (Raise e, w1) =>
           same_maps w (snd (handle_file file w))
           /\ calls (snd (handle_file file w)) = calls w1
       end.
Proof.
  intros Hmem Hex. unfold handle_file. rewrite Hmem.
  unfold mbind at 1. cbn [show].
  unfold process_upload, mbind, show, get_config, lift. cbv beta iota.
  cbn [documents summaries token_counts session_config calls screen].
  rewrite Hex. cbn [fst snd].
  destruct (1 <? List.length chunks)%nat; cbv beta iota delta [mret];
    cbn [documents summaries token_counts session_config calls screen];
    match goal with
    | |- context [process_document_chunks ?f ?c ?t ?W] =>
        exists W; split; [unfold same_maps; cbn; auto|];
        split; [reflexivity|];
        pose proof (process_chunks_frame f c t W) as [Hframe _];
        destruct (process_document_chunks f c t W)
          as [[[[docs sums] tokens]|e] w1]
    end;
    cbn [snd] in Hframe; destruct Hframe as (Hd & Hs & Ht & Hc);
    cbn [documents summaries token_counts session_config] in Hd, Hs, Ht, Hc;
    unfold update_documents, update_summaries, update_token_counts, same_maps;
    cbv beta iota;
    cbn [snd documents summaries token_counts session_config calls screen];
    rewrite ?Hd, ?Hs, ?Ht, ?Hc; auto 10.
Qed.

Lemma process_single_chunk (file_name chunk : string) (tokens : Z) (w : world) :
  process_document_chunks file_name [chunk] [tokens] w
  = match chat_completions_create (calls w)
            (summary_request (session_config w) chunk) with
    | Ok summary =>
        (Ok ([(file_name, chunk)], [(file_name, summary)], [(file_name, tokens)]),
         sent (summary_request (session_config w) chunk) w)
    | Raise e => (Raise e, sent (summary_request (session_config w) chunk) w)
    end.
Proof.
  unfold process_document_chunks. cbn [combine List.length chunks_loop].
  unfold mbind. rewrite get_summary_unfold.
  destruct (chat_completions_create _ _); reflexivity.
Qed.

Lemma handle_file_well_formed (file : uploaded_file) (w : world) :
  maps_well_formed w -> maps_well_formed (snd (handle_file file w)).
Proof.
  intros (H1 & H2 & H3).
  destruct (handle_file_outcome file w)
    as (_ & docs & sums & tokens & _ & _ & Hd & Hs & Ht & _).
  unfold maps_well_formed. rewrite Hd, Hs, Ht, !keys_update.
  repeat split; apply fold_add_key_nodup; assumption.
Qed.

(** X20. No session map ever holds a key twice: the upload loop and the
    editing of summaries keep the keys of each of the three maps free
    of repetitions, starting from the empty session. *)
Theorem session_maps_stay_well_formed (uploaded_files : list uploaded_file)
    (text_area : string -> string -> string) (w : world) :
  maps_well_formed w ->
  maps_well_formed (snd (upload_loop uploaded_files w))
  /\ maps_well_formed (snd (edit_summaries text_area w)).
Proof.
  intros H. split.
  - revert w H. induction uploaded_files as [|file rest IH]; intros w H;
      [exact H|].
    rewrite upload_loop_cons. apply IH, handle_file_well_formed, H.
  - destruct H as (H1 & H2 & H3). unfold maps_well_formed, edit_summaries.
    cbn [snd documents summaries token_counts].
    rewrite edit_loop_keys. auto.
Qed.

(** X21. A file that is not yet a key, whose text stays under the
    threshold and whose summary request is answered, ends up under its
    own name in all three maps: the full text, the model's answer and
    the token count.  One request was sent, and a later pass over the
    same file changes nothing. *)
Theorem small_file_stored_under_its_name (file : uploaded_file) (w : world)
    (text summary : string) (tokens : Z) :
  mem (name file) (documents w) = false ->
  extract_text_from_pdf (session_config w) (read file) = Ok ([text], [tokens]) ->
  chat_completions_create (calls w)
    (summary_request (session_config w) text) = Ok summary ->
  let w' := snd (handle_file file w) in
  get (name file) (documents w') = Some text
  /\ get (name file) (summaries w') = Some summary
  /\ get (name file) (token_counts w') = Some tokens
  /\ calls w' = (calls w ++ [summary_request (session_config w) text])%list
  /\ handle_file file w' = (Ok tt, w').
Proof.
  intros Hmem Hex Hchat w'. subst w'.
  destruct (handle_file_after_extract file w [text] [tokens] Hmem Hex)
    as (W & (_ & _ & _ & Hcfg) & Hcalls & Hrun).
  rewrite process_single_chunk, Hcalls, Hcfg, Hchat in Hrun.
  destruct Hrun as (Hd & Hs & Ht & Hc & _).
  assert (Hdoc : get (name file) (documents (snd (handle_file file w)))
                 = Some text).
  { rewrite Hd. cbn. apply get_set_same. }
  split; [exact Hdoc|].
  split; [rewrite Hs; cbn; apply get_set_same|].
  split; [rewrite Ht; cbn; apply get_set_same|].
  split; [rewrite Hc; cbn; rewrite Hcalls; reflexivity|].
  unfold handle_file at 1. unfold mem. rewrite Hdoc. reflexivity.
Qed.

(** X22. A file that is cut into several chunks is stored under part
    names only, so its own name is still not a key after the step: the
    next pass does not recognise it and processes it again, sending a
    summary request for its first chunk again. *)
Theorem split_file_processed_again (file : uploaded_file) (w : world)
    (chunk : string) (chunks : list string) (chunk_tokens : list Z) :
  mem (name file) (documents w) = false ->
  extract_text_from_pdf (session_config w) (read file)
    = Ok (chunk :: chunks, chunk_tokens) ->
  chunks <> [] ->
  let w1 := snd (handle_file file w) in
  let w2 := snd (handle_file file w1) in
  mem (name file) (documents w1) = false
  /\ exists more,
       calls w2
       = (calls w1 ++ summary_request (session_config w) chunk :: more)%list.
Proof.
  intros Hmem Hex Hne w1 w2.
  assert (Hstep : forall w0,
            mem (name file) (documents w0) = false ->
            session_config w0 = session_config w ->
            mem (name file) (documents (snd (handle_file file w0))) = false
            /\ session_config (snd (handle_file file w0)) = session_config w
            /\ exists more,
                 calls (snd (handle_file file w0))
                 = (calls w0 ++ summary_request (session_config w) chunk :: more)%list).
  { intros w0 Hmem0 Hcfg0.
    pose proof (extract_same_length _ _ _ _ Hex) as Hlen.
    destruct chunk_tokens as [|t ts]; [discriminate|].
    rewrite <- Hcfg0 in Hex.
    destruct (handle_file_after_extract file w0 _ _ Hmem0 Hex)
      as (W & (_ & _ & _ & HcfgW) & HcallsW & Hrun).
    unfold process_document_chunks in Hrun.
    cbn [combine] in Hrun.
    match type of Hrun with
    | context [chunks_loop ?f ?n ?i ((?c, ?t0) :: ?r) ?d ?s ?u ?W0] =>
        destruct (chunks_loop_first_request f n i c t0 r d s u W0)
          as [more Hmore];
        pose proof (chunks_loop_entries f n ((c, t0) :: r) i d s u W0) as Hent;
        destruct (chunks_loop f n i ((c, t0) :: r) d s u W0)
          as [[[[docs sums] tokens]|e] wk]
    end.
    - destruct Hrun as (Hd & _ & _ & Hc & Hcfg).
      split; [|split; [congruence|]].
      + destruct (mem (name file) (documents (snd (handle_file file w0))))
          eqn:E; [|reflexivity]. exfalso.
        apply mem_in_keys in E. rewrite Hd, keys_update in E.
        apply in_fold_add_key_iff in E. destruct E as [E|E].
        * apply mem_in_keys in E. congruence.
        * destruct (Hent docs sums tokens wk eq_refl eq_refl) as (Hdocs & _).
          { cbn [keys map empty app].
            pose proof (chunk_names_nodup (name file)
                          (List.length (chunk :: chunks))
                          (List.length (combine (chunk :: chunks) (t :: ts))))
              as Hnd.
            apply Hnd. rewrite length_combine. lia. }
          { reflexivity. }
          rewrite Hdocs in E. cbn [empty app] in E.
          unfold keys in E. apply in_map_iff in E.
          destruct E as ([k v] & Hk & Hin). cbn in Hk. subst k.
          apply in_combine_l in Hin. apply in_map_iff in Hin.
          destruct Hin as (j & Hj & _). unfold chunk_name in Hj.
          assert (Hbig : (1 <? List.length (chunk :: chunks))%nat = true).
          { apply Nat.ltb_lt. destruct chunks; [congruence|]. cbn. lia. }
          rewrite Hbig in Hj. exact (part_name_not_file_name _ _ _ Hj).
      + exists more. rewrite Hc. cbn [snd] in Hmore. rewrite Hmore.
        rewrite HcallsW, HcfgW, Hcfg0. reflexivity.
    - destruct Hrun as ((Hd & _ & _ & Hcfg) & Hc).
      split; [rewrite Hd; exact Hmem0|]. split; [congruence|].
      exists more. rewrite Hc. cbn [snd] in Hmore. rewrite Hmore.
      rewrite HcallsW, HcfgW, Hcfg0. reflexivity. }
  destruct (Hstep w Hmem eq_refl) as (Hmem1 & Hcfg1 & _).
  split; [exact Hmem1|].
  destruct (Hstep w1 Hmem1 Hcfg1) as (_ & _ & Hcalls2). exact Hcalls2.
Qed.

End MoreUpload.

Lemma edit_loop_other (text_area : string -> string -> string)
    (filenames : list string) (k : string) :
  ~ In k filenames ->
  forall sums, get k (edit_loop text_area filenames sums) = get k sums.
Proof.
  induction filenames as [|f rest IH]; intros Hk sums; cbn [edit_loop];
    [reflexivity|].
  assert (Hne : k <> f) by (intros ->; apply Hk; left; reflexivity).
  assert (Hrest : ~ In k rest) by (intros H; apply Hk; right; exact H).
  destruct (get f sums) as [current|]; [|apply IH, Hrest].
  destruct (String.eqb (text_area f current) current); [apply IH, Hrest|].
  rewrite (IH Hrest). apply get_set_other, Hne.
Qed.

Lemma edit_loop_edited (text_area : string -> string -> string)
    (filenames : list string) (k : string) :
  NoDup filenames -> In k filenames ->
  forall sums old,
    get k sums = Some old ->
    get k (edit_loop text_area filenames sums) = Some (text_area k old).
Proof.
  induction 1 as [|f rest Hnotin Hnd IH]; intros Hin sums old Hold;
    [destruct Hin|].
  cbn [edit_loop]. destruct Hin as [->|Hin].
  - rewrite Hold.
    destruct (String.eqb_spec (text_area k old) old) as [E|E].
    + rewrite (edit_loop_other _ _ _ Hnotin). rewrite E. exact Hold.
    + rewrite (edit_loop_other _ _ _ Hnotin). apply get_set_same.
  - assert (Hne : k <> f) by (intros ->; contradiction).
    destruct (get f sums) as [current|]; [|apply IH; assumption].
    destruct (String.eqb (text_area f current) current);
      [apply IH; assumption|].
    apply IH; [exact Hin|]. rewrite get_set_other by exact Hne. exact Hold.
Qed.

(** X23. Editing overwrites and does not merge: when the summaries hold
    no key twice, after the editing step every summary is exactly what
    its text area holds, the key order is unchanged, and the documents,
    the token counts and the request log are untouched. *)
Theorem edits_overwrite_summaries (text_area : string -> string -> string)
    (w : world) (k old : string) :
  NoDup (keys (summaries w)) ->
  get k (summaries w) = Some old ->
  let w' := snd (edit_summaries text_area w) in
  get k (summaries w') = Some (text_area k old)
  /\ keys (summaries w') = keys (summaries w)
  /\ documents w' = documents w
  /\ token_counts w' = token_counts w
  /\ calls w' = calls w.
Proof.
  intros Hnd Hold w'. subst w'. unfold edit_summaries.
  cbn [snd documents summaries token_counts calls].
  split; [|split; [apply edit_loop_keys | auto]].
  apply edit_loop_edited; [exact Hnd | | exact Hold].
  apply get_in_keys. eauto.
Qed.

Lemma session_maps_stay_well_formed_witness :
  maps_well_formed
    (snd (@upload_loop byte_tokenizer outcome_pdf
            (scripted_runtime [Ok "s1"; Ok "s2"; Ok "s3"; Ok "s4"; Ok "s5"] [])
            [large_file; small_file; large_file]
            (initial_world (test_config 3)))).
Proof.
  refine (proj1 (@session_maps_stay_well_formed byte_tokenizer outcome_pdf
            (scripted_runtime [Ok "s1"; Ok "s2"; Ok "s3"; Ok "s4"; Ok "s5"] [])
            [large_file; small_file; large_file] test_text_area
            (initial_world (test_config 3)) _)).
  repeat split; constructor.
Defined.

Lemma small_file_stored_under_its_name_witness :
  get "a.pdf"
      (documents (snd (@handle_file byte_tokenizer outcome_pdf
                         (scripted_runtime [Ok "s1"] [])
                         small_file (initial_world (test_config 3)))))
  = Some "ab".
Proof.
  refine (proj1 (@small_file_stored_under_its_name byte_tokenizer outcome_pdf
            (scripted_runtime [Ok "s1"] []) small_file
            (initial_world (test_config 3)) "ab" "s1" 2
            eq_refl eq_refl eq_refl)).
Defined.

Lemma split_file_processed_again_witness :
  mem "b.pdf"
      (documents (snd (@handle_file byte_tokenizer outcome_pdf
                         (scripted_runtime [Ok "s1"; Ok "s2"] [])
                         large_file (initial_world (test_config 3)))))
  = false.
Proof.
  refine (proj1 (@split_file_processed_again byte_tokenizer outcome_pdf
            (scripted_runtime [Ok "s1"; Ok "s2"] []) large_file
            (initial_world (test_config 3)) "abc" ["def"] [3; 3]
            eq_refl eq_refl _)).
  discriminate.
Defined.

Lemma edits_overwrite_summaries_witness :
  get "a.pdf"
      (summaries
         (snd (edit_summaries test_text_area
                 (snd (@handle_file byte_tokenizer outcome_pdf
                         (scripted_runtime [Ok "s1"] [])
                         small_file (initial_world (test_config 3)))))))
  = Some "EDITED s1".
Proof.
  refine (proj1 (edits_overwrite_summaries test_text_area
            (snd (@handle_file byte_tokenizer outcome_pdf
                    (scripted_runtime [Ok "s1"] [])
                    small_file (initial_world (test_config 3))))
            "a.pdf" "s1" _ eq_refl)).
  vm_compute. constructor; [intros [] | constructor].
Defined.

(** ** Answering a question *)

Section QuestionProperties.

Context {RT : Runtime} {PG : Page}.

Lemma get_answer_unfold (question document_text : string) (w : world) :
  get_answer question document_text w
  = (chat_completions_create (calls w)
       (answer_request (session_config w) question document_text),
     sent (answer_request (session_config w) question document_text) w).
Proof. reflexivity. Qed.

Lemma select_frame (question : string) (summaries : dict string) (w : world) :
  calls (snd (select_relevant_document question summaries w))
  = (calls w ++ [relevance_request (session_config w) question summaries])%list
  /\ same_maps w (snd (select_relevant_document question summaries w)).
Proof.
  rewrite select_relevant_document_unfold. cbv zeta.
  destruct (chat_completions_create _ _) as [content|e];
    [|split; [reflexivity | unfold same_maps; cbn; auto]].
  destruct (parse_scores content) as [[best d]|[]];
    try (split; [reflexivity | unfold same_maps; cbn; auto]).
  unfold fallback_scores, mbind. cbn [show].
  destruct (keys summaries); cbn;
    split; try reflexivity; unfold same_maps; cbn; auto.
Qed.

(** The name a selection returns is always a key of the score map
    returned with it. *)
Lemma select_result_scored (question : string) (summaries : dict string)
    (w w1 : world) (best : string) (scores : dict pyval) :
  select_relevant_document question summaries w = (Ok (best, scores), w1) ->
  exists score, get best scores = Some score.
Proof.
  rewrite select_relevant_document_unfold. cbv zeta.
  destruct (chat_completions_create _ _) as [content|e]; [|discriminate].
  unfold parse_scores.
  destruct (json_loads content) as [v|e]; cbn [rbind].
  - destruct v as [| | | | | |dv]; cbn [py_items rbind]; try discriminate.
    destruct (py_max_by_value dv) as [r|e] eqn:Em; cbn [rbind].
    + intros H. injection H as <- <- _. apply get_in_keys.
      destruct dv as [|first rest]; [discriminate|]. cbn in Em.
      apply max_scan_member in Em. unfold keys. apply in_map, Em.
    + destruct dv as [|first rest]; cbn in Em.
      * injection Em as <-. discriminate.
      * apply max_scan_raises_type_error in Em. subst e. discriminate.
  - destruct e; try discriminate.
    unfold fallback_scores, mbind. cbn [show].
    destruct (keys summaries) as [|first others] eqn:Ek; [discriminate|].
    intros H. injection H as <- <- _.
    destruct (zero_scores_fold (keys summaries) empty) as (Z1 & _).
    exists (PInt 0). apply Z1. rewrite Ek. left. reflexivity.
Qed.

(** X24. While the three session maps have the same keys, the question
    block can fail on a missing key only for a name that is not a key
    of the summaries at all, that is, for a document name the model
    made up. *)
Theorem key_error_only_for_unknown_name (button : bool) (question : string)
    (w : world) (k : string) :
  maps_aligned w ->
  fst (answer_question button question w) = Failed (KeyError k) ->
  ~ In k (keys (summaries w)).
Proof.
  intros [A1 A2] H. unfold answer_question in H. cbv zeta in H.
  destruct (button && negb (String.eqb question "")
            && negb match documents w with [] => true | _ :: _ => false end);
    [|discriminate].
  pose proof (select_frame question (summaries w) w) as [_ Hsame].
  pose proof (select_result_scored question (summaries w) w) as Hscored.
  destruct (select_relevant_document question (summaries w) w)
    as [[[best scores]|e] w1]; [|discriminate].
  cbn [snd] in Hsame. destruct Hsame as (Hd & Hs & Ht & _).
  destruct (Hscored w1 best scores eq_refl) as [score Hscore].
  destruct (render_scores scores); [|discriminate].
  destruct (get best (documents w1)) as [text|] eqn:Edoc.
  - exfalso. rewrite get_answer_unfold in H.
    destruct (chat_completions_create _ _); [|discriminate].
    cbn [sent token_counts] in H.
    assert (Hin : In best (keys (token_counts w1))).
    { rewrite Ht, <- A2, <- A1, <- Hd. apply get_in_keys. eauto. }
    apply get_in_keys in Hin. destruct Hin as [size Hsize].
    rewrite Hsize, Hscore in H. discriminate.
  - cbn in H. injection H as <-. intros Hin.
    rewrite <- A1, <- Hd in Hin. apply get_in_keys in Hin.
    destruct Hin as [v Hv]. congruence.
Qed.

(** X25. When the selected name is not a key of the documents, the
    question block stops on the lookup: the relevance request is the
    only request sent and no answer is asked for. *)
Theorem unknown_selection_stops_before_answer (question : string)
    (w w1 : world) (best : string) (scores : dict pyval) :
  question <> "" ->
  documents w <> [] ->
  select_relevant_document question (summaries w) w = (Ok (best, scores), w1) ->
  render_scores scores = Ok tt ->
  mem best (documents w) = false ->
  answer_question true question w = (Failed (KeyError best), w1)
  /\ calls w1
     = (calls w ++ [relevance_request (session_config w) question (summaries w)])%list.
Proof.
  intros Hq Hdocs Hsel Hrender Hmem.
  pose proof (select_frame question (summaries w) w) as [Hcalls Hsame].
  rewrite Hsel in Hcalls, Hsame. cbn [snd] in Hcalls, Hsame.
  destruct Hsame as (Hd & _). split; [|exact Hcalls].
  unfold answer_question. cbv zeta.
  apply String.eqb_neq in Hq. rewrite Hq.
  assert (Hgate : negb match documents w with [] => true | _ :: _ => false end
                  = true)
    by (destruct (documents w); [congruence | reflexivity]).
  rewrite Hgate. cbn [andb negb]. rewrite Hsel, Hrender, Hd.
  unfold mem in Hmem.
  destruct (get best (documents w)); [discriminate | reflexivity].
Qed.

(** X26. With aligned maps, at least one document and a relevance body
    that does not parse, the question block answers from the first
    document: the answer box names the first key, shows its token count
    and the score 0, and the two requests sent are the relevance request
    and the answer request over that document's text. *)
Theorem fallback_answers_from_first_document (question : string) (w : world)
    (content answer : string) :
  maps_aligned w ->
  question <> "" ->
  documents w <> [] ->
  chat_completions_create (calls w)
    (relevance_request (session_config w) question (summaries w)) = Ok content ->
  json_loads content = Raise JSONDecodeError ->
  render_scores (zero_scores (summaries w)) = Ok tt ->
  (forall req,
     chat_completions_create
       (calls w ++ [relevance_request (session_config w) question (summaries w)])%list
       req = Ok answer) ->
  exists first text size,
    hd_error (keys (documents w)) = Some first
    /\ get first (documents w) = Some text
    /\ get first (token_counts w) = Some size
    /\ fst (answer_question true question w)
       = Done (Some {| source := first; document_size := size;
                       relevance_score := PInt 0; answer_text := answer |})
    /\ calls (snd (answer_question true question w))
       = (calls w
          ++ [relevance_request (session_config w) question (summaries w);
              answer_request (session_config w) question text])%list.
Proof.
  intros [A1 A2] Hq Hdocs Hchat Hjson Hrender Hanswer.
  destruct (documents w) as [|[first text] others] eqn:Ed; [congruence|].
  assert (Hk : keys (summaries w) = first :: keys others).
  { rewrite <- A1. reflexivity. }
  assert (Hsize : exists size, get first (token_counts w) = Some size).
  { apply get_in_keys. rewrite <- A2, Hk. left. reflexivity. }
  destruct Hsize as [size Hsize].
  exists first, text, size.
  split; [reflexivity|].
  split; [cbn; rewrite String.eqb_refl; reflexivity|].
  split; [exact Hsize|].
  assert (Hsel : select_relevant_document question (summaries w) w
                 = (Ok (first, zero_scores (summaries w)),
                    shown ErrorParsingScores
                      (sent (relevance_request (session_config w) question
                               (summaries w)) w))).
  { rewrite select_relevant_document_unfold. cbv zeta. rewrite Hchat.
    unfold parse_scores. rewrite Hjson. cbn [rbind].
    unfold fallback_scores, mbind. cbn [show]. rewrite Hk. reflexivity. }
  assert (Hzero : get first (zero_scores (summaries w)) = Some (PInt 0)).
  { destruct (zero_scores_fold (keys (summaries w)) empty) as (Z1 & _).
    apply Z1. rewrite Hk. left. reflexivity. }
  unfold answer_question. cbv zeta.
  apply String.eqb_neq in Hq. rewrite Hq, Ed. cbn [andb negb].
  rewrite Hsel, Hrender. cbn [shown sent documents]. rewrite Ed.
  cbn [get]. rewrite String.eqb_refl. rewrite get_answer_unfold.
  cbn [shown sent calls session_config]. rewrite Hanswer.
  cbn [shown sent token_counts]. rewrite Hsize, Hzero.
  cbn [fst snd shown sent calls].
  split; [reflexivity|]. rewrite <- app_assoc. reflexivity.
Qed.

(** X27. However the question block ends, it leaves the three session
    maps and the configuration as they were and has sent at most two
    requests. *)
Theorem question_block_frame (button : bool) (question : string) (w : world) :
  same_maps w (snd (answer_question button question w))
  /\ exists more,
       calls (snd (answer_question button question w)) = (calls w ++ more)%list
       /\ (List.length more <= 2)%nat.
Proof.
  unfold answer_question. cbv zeta.
  destruct (button && negb (String.eqb question "")
            && negb match documents w with [] => true | _ :: _ => false end).
  2:{ split; [apply same_maps_refl|]. exists []. rewrite app_nil_r. cbn. auto. }
  pose proof (select_frame question (summaries w) w) as [Hcalls Hsame].
  destruct (select_relevant_document question (summaries w) w)
    as [[[best scores]|e] w1]; cbn [snd] in Hcalls, Hsame.
  2:{ split; [exact Hsame|]. eexists. split; [exact Hcalls|]. cbn. lia. }
  assert (Hone : same_maps w w1
                 /\ exists more, calls w1 = (calls w ++ more)%list
                                 /\ (List.length more <= 2)%nat).
  { split; [exact Hsame|]. eexists. split; [exact Hcalls|]. cbn. lia. }
  destruct (render_scores scores); [|exact Hone].
  destruct (get best (documents w1)) as [text|]; [|exact Hone].
  rewrite get_answer_unfold.
  assert (Htwo : forall req,
            same_maps w (sent req w1)
            /\ exists more, calls (sent req w1) = (calls w ++ more)%list
                            /\ (List.length more <= 2)%nat).
  { intros req. split.
    - destruct Hsame as (Hd & Hs & Ht & Hc). unfold same_maps. cbn. auto.
    - eexists. cbn [sent calls]. rewrite Hcalls, <- app_assoc.
      split; [reflexivity|]. cbn. lia. }
  destruct (chat_completions_create _ _); [|apply Htwo].
  destruct (get best (token_counts _)); [|apply Htwo].
  destruct (get best scores); apply Htwo.
Qed.

End QuestionProperties.

Lemma key_error_only_for_unknown_name_witness :
  ~ In "ghost.pdf" (keys (summaries one_document_world)).
Proof.
  apply (@key_error_only_for_unknown_name
           (scripted_runtime [Ok ghost_body] json_fixture2) plain_page
           true "which one?" one_document_world "ghost.pdf").
  - split; reflexivity.
  - reflexivity.
Defined.

Lemma unknown_selection_stops_before_answer_witness :
  fst (@answer_question (scripted_runtime [Ok ghost_body; Ok "an answer"]
                           json_fixture2) plain_page
         true "which one?" one_document_world)
  = Failed (KeyError "ghost.pdf")
  /\ List.length
       (calls (snd (@answer_question
                      (scripted_runtime [Ok ghost_body; Ok "an answer"]
                         json_fixture2) plain_page
                      true "which one?" one_document_world))) = 1%nat.
Proof.
  destruct (@unknown_selection_stops_before_answer
              (scripted_runtime [Ok ghost_body; Ok "an answer"] json_fixture2)
              plain_page "which one?" one_document_world _
              "ghost.pdf" [("ghost.pdf", PInt 99)]
              ltac:(discriminate) ltac:(discriminate)
              eq_refl eq_refl eq_refl) as [Hrun _].
  rewrite Hrun. split; reflexivity.
Defined.

Lemma fallback_answers_from_first_document_witness :
  exists first text size,
    hd_error (keys (documents one_document_world)) = Some first
    /\ get first (documents one_document_world) = Some text
    /\ get first (token_counts one_document_world) = Some size
    /\ fst (@answer_question
              (scripted_runtime [Ok "no scores, sorry"; Ok "an answer"]
                 json_fixture2) plain_page
              true "which one?" one_document_world)
       = Done (Some {| source := first; document_size := size;
                       relevance_score := PInt 0;
                       answer_text := "an answer" |})
    /\ calls (snd (@answer_question
                     (scripted_runtime [Ok "no scores, sorry"; Ok "an answer"]
                        json_fixture2) plain_page
                     true "which one?" one_document_world))
       = (calls one_document_world
          ++ [relevance_request (session_config one_document_world)
                "which one?" (summaries one_document_world);
              answer_request (session_config one_document_world)
                "which one?" text])%list.
Proof.
  apply (@fallback_answers_from_first_document
           (scripted_runtime [Ok "no scores, sorry"; Ok "an answer"]
              json_fixture2) plain_page
           "which one?" one_document_world "no scores, sorry" "an answer").
  - split; reflexivity.
  - discriminate.
  - discriminate.
  - reflexivity.
  - reflexivity.
  - reflexivity.
  - intros req. reflexivity.
Defined.
